(** * GoQuick courier and parcel management server

    A shallow embedding of the Express/MongoDB server (the latest revision of
    [index.js], the one with Firebase authentication, geocoding, agent
    availability release and status e-mails) and the properties of its
    parcel lifecycle.

    Modelling conventions.
    - A JSON/BSON value is a [value]; a JavaScript object and a MongoDB
      document are finite maps from field names to values.  JSON arrays are
      not modelled.  JavaScript numbers are represented by integers.
    - A MongoDB collection is the list of its documents in natural order.
      [$set] assigns top-level field names and an equality filter compares
      values structurally.  That is what MongoDB does with plain documents
      ([Mongo.plain]: no field name, at any depth, is empty, has a dot or
      begins with [$]); a dotted name is a path into an embedded document and
      a [$]-prefixed one an operator, and neither is modelled.  The
      theorems whose point is what a write stores, or what a filter built
      from a request body finds, take a plain request body as a hypothesis.
    - Handlers run in a state-and-exception monad over the three collections
      and a trace of outward effects (socket broadcasts, mails handed to the
      transport, console lines).  Whether an awaited external call rejects is
      read from the environment of the request; a rejected call leaves the
      state as it was before the call.
    - What lies outside the server is abstract: the outcome of the token
      check is part of the request, a path parameter is the ObjectId it
      parses to (or none), the geocoding provider is a function from the
      query to its reply.
    - The markup of a mail is elided: a mail is its recipient and subject. *)

From Stdlib Require Import Strings.Ascii.
From stdpp Require Import gmap strings list fin_maps pretty.

Set Warnings "-register-all".

(** ** Values and documents *)

Inductive value :=
  | VNull
  | VBool (b : bool)
  | VNum (z : Z)
  | VStr (s : string)
  | VOid (n : N)
  | VDate (t : Z)
  | VObj (fs : gmap string value).

Abbreviation doc := (gmap string value).

Global Instance value_eq_dec : EqDecision value.
Proof.
  refine (fix go (v w : value) {struct v} : Decision (v = w) :=
    match v, w with
    | VNull, VNull => left _
    | VBool a, VBool b => cast_if (decide (a = b))
    | VNum a, VNum b => cast_if (decide (a = b))
    | VStr a, VStr b => cast_if (decide (a = b))
    | VOid a, VOid b => cast_if (decide (a = b))
    | VDate a, VDate b => cast_if (decide (a = b))
    | VObj a, VObj b => cast_if (@decide (a = b) (@gmap_eq_dec _ _ _ _ go a b))
    | _, _ => right _
    end); congruence.
Defined.

(** [None] stands for JavaScript's [undefined]. *)
Module JS.

(** ToBoolean, as used by [if (x)], [!x] and [x ? a : b]. *)
Definition truthy (v : option value) : bool :=
  match v with
  | None | Some VNull => false
  | Some (VBool b) => b
  | Some (VNum z) => negb (z =? 0)%Z
  | Some (VStr s) => negb (String.eqb s "")
  | Some (VOid _) | Some (VDate _) | Some (VObj _) => true
  end.

(** Property read [v.k]; [None] when [v] is not an object or lacks [k].
    Reading a property of [null] or [undefined] raises and is handled where
    it can occur. *)
Definition prop (k : string) (v : value) : option value :=
  match v with
  | VObj o => o !! k
  | _ => None
  end.

(** ToString, as applied by [x + ", Dhaka"].  A number prints in decimal
    digits, which is how JavaScript prints an integer it represents exactly
    (exponent notation, used from 1e21 on, is not modelled).  A parsed JSON
    body holds no ObjectId or Date; they are rendered by their number. *)
Definition to_string (v : option value) : string :=
  match v with
  | None => "undefined"
  | Some VNull => "null"
  | Some (VBool true) => "true"
  | Some (VBool false) => "false"
  | Some (VNum z) => pretty z
  | Some (VStr s) => s
  | Some (VOid n) => pretty n
  | Some (VDate t) => pretty t
  | Some (VObj _) => "[object Object]"
  end.

(** [x === "lit"] *)
Definition is_string (lit : string) (v : option value) : bool :=
  bool_decide (v = Some (VStr lit)).

End JS.

(** ** MongoDB collections *)

Module Mongo.

Abbreviation collection := (list doc).

Record update_result := UpdateResult { matchedCount : nat; modifiedCount : nat }.

(** Plain field names and documents.  In an update document a name with a
    dot is a path into embedded documents, and a name with a leading [$] is
    an operator, in an update and in a filter operand alike. *)
Fixpoint has_dot (k : string) : bool :=
  match k with
  | EmptyString => false
  | String a k' => Ascii.eqb a "."%char || has_dot k'
  end.

Definition plain_key (k : string) : bool :=
  match k with
  | EmptyString => false
  | String a _ => negb (Ascii.eqb a "$"%char) && negb (has_dot k)
  end.

Fixpoint plain_value (v : value) : bool :=
  match v with
  | VObj o => map_fold (λ k x acc, plain_key k && plain_value x && acc) true o
  | _ => true
  end.

Definition plain (d : doc) : bool := plain_value (VObj d).

(** The field name [k] of an update document addresses the field [field]:
    it is [field] itself or a path into it. *)
Definition addresses (field k : string) : bool :=
  String.eqb k field || String.prefix (field +:+ ".") k.

(** Equality condition [{ k : q }] of a filter with a plain operand.  The
    driver sends an [undefined] operand as [null], which matches a missing
    field too. *)
Definition eq_match (q actual : option value) : bool :=
  match q with
  | None | Some VNull =>
      match actual with
      | None | Some VNull => true
      | Some _ => false
      end
  | Some v => bool_decide (actual = Some v)
  end.

(** [{ _id: new ObjectId(id) }] *)
Definition by_id (id : N) (d : doc) : bool :=
  bool_decide (d !! "_id" = Some (VOid id)).

(** [{ email: e }] *)
Definition by_email (e : option value) (d : doc) : bool :=
  eq_match e (d !! "email").

(** [{}] *)
Definition any (d : doc) : bool := true.

Definition findOne (p : doc → bool) (c : collection) : option doc :=
  snd <$> list_find (λ d, p d) c.

Definition find (p : doc → bool) (c : collection) : collection :=
  filter (λ d, p d) c.

(** The server refuses an update that would change [_id]. *)
Definition changes_id (upd d : doc) : bool :=
  match upd !! "_id" with
  | Some v => bool_decide (d !! "_id" ≠ Some v)
  | None => false
  end.

(** [updateOne(filter, { $set: upd })] for a plain [upd]: the first matching
    document takes the fields of [upd]; [modifiedCount] counts it only when
    it changed.  [None] is the write error. *)
Definition updateOne (p : doc → bool) (upd : doc) (c : collection)
    : option (update_result * collection) :=
  match list_find (λ d, p d) c with
  | None => Some (UpdateResult 0 0, c)
  | Some (i, d) =>
      if changes_id upd d then None
      else
        let d' := upd ∪ d in
        Some (UpdateResult 1 (if decide (d' = d) then 0 else 1), <[i := d']> c)
  end.

(** [insertOne(d)]: the driver gives a document whose [_id] is missing or
    [null] ([doc._id == null]) the generated one; a second document with the
    same [_id] is a duplicate-key error. *)
Definition with_id (fresh : N) (d : doc) : doc :=
  match d !! "_id" with
  | None | Some VNull => <["_id" := VOid fresh]> d
  | Some _ => d
  end.

Definition insertOne (fresh : N) (d : doc) (c : collection)
    : option (option value * collection) :=
  let d' := with_id fresh d in
  if bool_decide (Exists (λ x, x !! "_id" = d' !! "_id") c) then None
  else Some (d' !! "_id", c ++ [d']).

(** [deleteOne(filter)] *)
Definition deleteOne (p : doc → bool) (c : collection) : nat * collection :=
  match list_find (λ d, p d) c with
  | None => (0, c)
  | Some (i, _) => (1, delete i c)
  end.

End Mongo.

(** ** Server state, environment and the handler monad *)

Record mail := Mail { to : option value; subject : string }.

Inductive event :=
  | Emit (name : string)
  | SendMail (m : mail)
  | ConsoleLog (line : string)
  | ConsoleError (line : string).

Record state := State {
  parcels : list doc;
  users : list doc;
  deliveryAgents : list doc;
  trace : list event
}.

Definition initial : state := State [] [] [] [].

Inductive coll := Parcels | Users | DeliveryAgents.

Inductive call :=
  | InsertOne (c : coll)
  | UpdateOne (c : coll)
  | FindOne (c : coll)
  | Find (c : coll)
  | DeleteOne (c : coll)
  | Transport.

Global Instance coll_eq_dec : EqDecision coll.
Proof. solve_decision. Defined.
Global Instance call_eq_dec : EqDecision call.
Proof. solve_decision. Defined.

(** What the world contributes to one request: the geocoding provider's
    reply to a query ([None]: the fetch rejects; otherwise the hits, each
    with latitude and longitude as parsed; a reply that is not a non-empty
    array is the empty list), the clock, the next generated ObjectId, and
    which awaited calls reject. *)
Record env := Env {
  nominatim : string → option (list (Z * Z));
  clock : Z;
  fresh_id : N;
  rejects : call → bool
}.

Inductive error :=
  | Rejected (c : call)
  | FetchFailed
  | BadObjectId
  | WriteError (c : coll)
  | TypeError.

Inductive outcome (A : Type) :=
  | Ok (a : A)
  | Throw (e : error).
Arguments Ok {A} a.
Arguments Throw {A} e.

Definition M (A : Type) : Type := state → outcome A * state.

Global Instance M_ret : MRet M := λ A a s, (Ok a, s).
Global Instance M_bind : MBind M := λ A B f m s,
  match m s with
  | (Ok a, s') => f a s'
  | (Throw e, s') => (Throw e, s')
  end.

Definition throw {A} (e : error) : M A := λ s, (Throw e, s).

(** [try { body } catch (err) { handler }] *)
Definition try_catch {A} (body : M A) (handler : error → M A) : M A := λ s,
  match body s with
  | (Ok a, s') => (Ok a, s')
  | (Throw e, s') => handler e s'
  end.

Definition get {A} (f : state → A) : M A := λ s, (Ok (f s), s).

Definition effect (e : event) : M unit := λ s,
  (Ok (), State (parcels s) (users s) (deliveryAgents s) (trace s ++ [e])).

Definition read_coll (c : coll) (s : state) : list doc :=
  match c with
  | Parcels => parcels s
  | Users => users s
  | DeliveryAgents => deliveryAgents s
  end.

Definition write_coll (c : coll) (l : list doc) (s : state) : state :=
  match c with
  | Parcels => State l (users s) (deliveryAgents s) (trace s)
  | Users => State (parcels s) l (deliveryAgents s) (trace s)
  | DeliveryAgents => State (parcels s) (users s) l (trace s)
  end.

(** ** HTTP responses *)

Inductive payload :=
  | Message (text : string)              (* { message } *)
  | BookingFailed (text : string)        (* { success: false, message } *)
  | Booked (insertedId : option value)   (* { success: true, insertedId } *)
  | Applied (insertedId : option value)  (* { message, insertedId } *)
  | Inserted (insertedId : option value) (* result of insertOne *)
  | Updated (r : Mongo.update_result)    (* result of updateOne *)
  | Deleted (deletedCount : nat)         (* result of deleteOne *)
  | Docs (l : list doc)
  | RoleOf (role : option value)         (* { role } *)
  | Text (s : string).

Record response := Response { code : nat; body_of : payload }.

(** Outcome of reading the [authorization] header and of
    [admin.auth().verifyIdToken]. *)
Inductive credentials :=
  | NoHeader
  | NoToken
  | BadToken
  | Decoded (email : string).

Inductive request :=
  | PostUpdateStatus
  | PostUsers (body : doc)
  | PatchUserRole (cr : credentials) (email : string) (body : doc)
  | GetUsers (cr : credentials)
  | GetUserRole (cr : credentials) (email : string)
  | PostDeliveryAgents (cr : credentials) (body : doc)
  | DeleteDeliveryAgent (cr : credentials) (id : option N)
  | GetDeliveryAgents (cr : credentials)
  | PostParcels (cr : credentials) (body : doc)
  | GetParcels (cr : credentials) (email : option string)
  | PatchParcel (cr : credentials) (id : option N) (body : doc)
  | GetAssignedParcels (cr : credentials) (email : option string)
  | GetRoot.

(** [String.prototype.toLowerCase] on ASCII strings: the letters [A]-[Z]
    are folded and every other ASCII character is kept.  Cased letters
    outside ASCII are not modelled; [ascii_only] tells the strings on which
    the model is exact. *)
Definition lower_ascii (a : Ascii.ascii) : Ascii.ascii :=
  let n := Ascii.nat_of_ascii a in
  if bool_decide (65 ≤ n ≤ 90) then Ascii.ascii_of_nat (n + 32) else a.

Fixpoint toLowerCase (s : string) : string :=
  match s with
  | EmptyString => EmptyString
  | String a s' => String (lower_ascii a) (toLowerCase s')
  end.

Fixpoint ascii_only (s : string) : bool :=
  match s with
  | EmptyString => true
  | String a s' => bool_decide (Ascii.nat_of_ascii a < 128) && ascii_only s'
  end.

Section Server.

Context (w : env).

(** *** Awaited external calls *)

(** [await c]: the promise rejects when the world says so; otherwise the
    call takes effect. *)
Definition await {A} (c : call) (op : M A) : M A :=
  if rejects w c then throw (Rejected c) else op.

(** [await collection.findOne(filter)], and likewise [find(filter).toArray()],
    [updateOne(filter, { $set: upd })], [insertOne(d)], [deleteOne(filter)]. *)
Definition coll_findOne (c : coll) (p : doc → bool) : M (option doc) :=
  await (FindOne c) (get (λ s, Mongo.findOne p (read_coll c s))).

Definition coll_find (c : coll) (p : doc → bool) : M (list doc) :=
  await (Find c) (get (λ s, Mongo.find p (read_coll c s))).

Definition coll_updateOne (c : coll) (p : doc → bool) (upd : doc)
    : M Mongo.update_result :=
  await (UpdateOne c) (λ s,
    match Mongo.updateOne p upd (read_coll c s) with
    | None => (Throw (WriteError c), s)
    | Some (r, l) => (Ok r, write_coll c l s)
    end).

Definition coll_insertOne (c : coll) (d : doc) : M (option value) :=
  await (InsertOne c) (λ s,
    match Mongo.insertOne (fresh_id w) d (read_coll c s) with
    | None => (Throw (WriteError c), s)
    | Some (i, l) => (Ok i, write_coll c l s)
    end).

Definition coll_deleteOne (c : coll) (p : doc → bool) : M nat :=
  await (DeleteOne c) (λ s,
    let '(n, l) := Mongo.deleteOne p (read_coll c s) in
    (Ok n, write_coll c l s)).

(** [transporter.sendMail(mailOptions)] *)
Definition sendMail (m : mail) : M unit :=
  effect (SendMail m);; await Transport (mret ()).

(** [new ObjectId(id)] on a path parameter; [None] is a malformed one. *)
Definition ObjectId (id : option N) : M N :=
  match id with
  | Some n => mret n
  | None => throw BadObjectId
  end.

(** *** Geocoding helper *)

(** [getCoordinates(address)]: [data && data.length > 0] gives the first
    hit as [{ lat, lng }], anything else [null]; a rejected fetch is not
    caught here. *)
Definition getCoordinates (address : string) : M (option value) :=
  match nominatim w address with
  | None => throw FetchFailed
  | Some [] => mret None
  | Some ((lat, lon) :: _) =>
      mret (Some (VObj (<["lat" := VNum lat]> (<["lng" := VNum lon]> ∅))))
  end.

(** *** Middleware: [Some r] answers the request, [None] calls [next()] *)

(** Missing header or token: 401; token refused by Firebase: 403; otherwise
    [req.decoded.email]. *)
Definition verifyFirebaseToken (cr : credentials) : response + string :=
  match cr with
  | NoHeader | NoToken => inl (Response 401 (Message "Unauthorized Access"))
  | BadToken => inl (Response 403 (Message "Forbidden Access"))
  | Decoded email => inr email
  end.

(** [verifyCustomer], [verifyDeliveryAgent] and [verifyAdmin] differ only in
    the role they ask for and in the message of the 403:
    [if (!user || user.role !== role)]. *)
Definition verifyRole (role denial : string) (email : string)
    : M (option response) :=
  user ← coll_findOne Users (Mongo.by_email (Some (VStr email)));
  match user with
  | Some u =>
      if JS.is_string role (u !! "role") then mret None
      else mret (Some (Response 403 (Message denial)))
  | None => mret (Some (Response 403 (Message denial)))
  end.

Definition verifyCustomer := verifyRole "customer" "Only users can access this route".
Definition verifyDeliveryAgent :=
  verifyRole "deliveryAgent" "Only members can access this route".
Definition verifyAdmin := verifyRole "admin" "Forbidden Access".

(** A route behind [verifyFirebaseToken], and one behind a role check too. *)
Definition authenticated (cr : credentials) (h : string → M response)
    : M response :=
  match verifyFirebaseToken cr with
  | inl r => mret r
  | inr email => h email
  end.

Definition authorized (cr : credentials)
    (check : string → M (option response)) (h : M response) : M response :=
  authenticated cr (λ email,
    denied ← check email;
    match denied with
    | Some r => mret r
    | None => h
    end).

(** *** Routes *)

(** [POST /update-status] *)
Definition post_update_status : M response :=
  effect (Emit "status-updated");;
  mret (Response 200 (Message "Status updated and clients notified")).

(** [POST /users] *)
Definition post_users (user : doc) : M response :=
  existingUser ← coll_findOne Users (Mongo.by_email (user !! "email"));
  match existingUser with
  | Some _ => mret (Response 409 (Message "User already exists"))
  | None =>
      result ← coll_insertOne Users user;
      mret (Response 200 (Inserted result))
  end.

(** [PATCH /users/role/:email] *)
Definition patch_user_role (cr : credentials) (email : string)
    (updateData : doc) : M response :=
  authorized cr verifyAdmin (
    result ← coll_updateOne Users (Mongo.by_email (Some (VStr email))) updateData;
    mret (Response 200 (Updated result))).

(** [GET /users] *)
Definition get_users (cr : credentials) : M response :=
  authorized cr verifyAdmin (
    try_catch
      (all ← coll_find Users Mongo.any;
       mret (Response 200 (Docs all)))
      (λ _,
        effect (ConsoleError "Error fetching users:");;
        mret (Response 500 (Message "Error fetching users")))).

(** [GET /users/:email/role] *)
Definition get_user_role (cr : credentials) (email : string) : M response :=
  authenticated cr (λ decodedEmail,
    try_catch
      (if bool_decide (email = "")
          || bool_decide (toLowerCase email ≠ toLowerCase decodedEmail)
       then mret (Response 403 (Message "Unauthorized access"))
       else
         user ← coll_findOne Users (Mongo.by_email (Some (VStr email)));
         match user with
         | None => mret (Response 404 (Message "User not found"))
         | Some u => mret (Response 200 (RoleOf (u !! "role")))
         end)
      (λ _, mret (Response 500 (Message "Failed to get role")))).

(** [POST /deliveryAgents] *)
Definition post_delivery_agents (cr : credentials) (agentData : doc)
    : M response :=
  authenticated cr (λ _,
    try_catch
      (exists_ ← coll_findOne DeliveryAgents (Mongo.by_email (agentData !! "email"));
       match exists_ with
       | Some _ => mret (Response 400 (Message "You have already applied."))
       | None =>
           result ← coll_insertOne DeliveryAgents
                      (<["appliedAt" := VDate (clock w)]> agentData);
           mret (Response 201 (Applied result))
       end)
      (λ _,
        effect (ConsoleError "Error applying delivery agent:");;
        mret (Response 500 (Message "Internal Server Error")))).

(** [DELETE /deliveryAgents/:id] *)
Definition delete_delivery_agent (cr : credentials) (id : option N)
    : M response :=
  authorized cr verifyAdmin (
    oid ← ObjectId id;
    n ← coll_deleteOne DeliveryAgents (Mongo.by_id oid);
    mret (Response 200 (Deleted n))).

(** [GET /deliveryAgents] *)
Definition get_delivery_agents (cr : credentials) : M response :=
  authorized cr verifyAdmin (
    try_catch
      (all ← coll_find DeliveryAgents Mongo.any;
       mret (Response 200 (Docs all)))
      (λ _, mret (Response 500 (Message "Error fetching delivery agents")))).

(** The record built by [POST /parcels]: the request body, then the fields
    the server sets, which override the body's. *)
Definition new_parcel (body : doc) (pickupCoords deliveryCoords : value) : doc :=
  <["delivery" := deliveryCoords]> (
  <["pickup" := pickupCoords]> (
  <["_id" := VOid (fresh_id w)]> (
  <["createdAt" := VDate (clock w)]> (
  <["status" := VStr "Pending"]> body)))).

(** [POST /parcels], the handler after its middleware *)
Definition book_parcel (body : doc) : M response :=
  try_catch
    (pickupCoords ← getCoordinates (JS.to_string (body !! "pickupAddress") +:+ ", Dhaka");
     deliveryCoords ← getCoordinates (JS.to_string (body !! "deliveryAddress") +:+ ", Dhaka");
     match pickupCoords, deliveryCoords with
     | Some pickup, Some delivery =>
         let parcel := new_parcel body pickup delivery in
         result ← coll_insertOne Parcels parcel;
         sendMail (Mail (parcel !! "email") "Parcel Booking Confirmation");;
         mret (Response 200 (Booked result))
     | _, _ => mret (Response 400 (BookingFailed "Invalid addresses"))
     end)
    (λ _,
      effect (ConsoleError "Error booking parcel:");;
      mret (Response 500 (BookingFailed "Booking failed"))).

Definition post_parcels (cr : credentials) (body : doc) : M response :=
  authorized cr verifyCustomer (book_parcel body).

(** [GET /parcels], the handler after its middleware:
    [email ? { email } : {}] *)
Definition list_parcels (email : option string) : M response :=
  let query :=
    if JS.truthy (VStr <$> email) then Mongo.by_email (VStr <$> email)
    else Mongo.any in
  result ← coll_find Parcels query;
  mret (Response 200 (Docs result)).

Definition get_parcels (cr : credentials) (email : option string) : M response :=
  authenticated cr (λ _, list_parcels email).

(** [parcel?.deliveryAgent?.email] *)
Definition agent_email (parcel : option doc) : option value :=
  match parcel with
  | None => None
  | Some p =>
      match p !! "deliveryAgent" with
      | None | Some VNull => None
      | Some a => JS.prop "email" a
      end
  end.

Definition is_final (status : option value) : bool :=
  JS.is_string "Delivered" status || JS.is_string "Failed" status.

(** [usersCollection.updateOne({ email: agentEmail },
    { $set: { availability: "available" } })] *)
Definition release_agent (agentEmail : option value) : M Mongo.update_result :=
  coll_updateOne Users (Mongo.by_email agentEmail)
    {["availability" := VStr "available"]}.

(** Follow-up of a modifying update whose body asks for [Delivered] or
    [Failed]. *)
Definition follow_up (oid : N) (updateData : doc) : M unit :=
  parcel ← coll_findOne Parcels (Mongo.by_id oid);
  let agentEmail := agent_email parcel in
  (if JS.truthy agentEmail then release_agent agentEmail;; mret () else mret ());;
  match parcel with
  | None => throw TypeError
  | Some p =>
      sendMail (Mail (p !! "email")
        ("Parcel Status Update: " +:+ JS.to_string (updateData !! "status")));;
      effect (ConsoleLog "Status email sent to")
  end.

(** [if (result.modifiedCount > 0) { ... }] *)
Definition on_modified (oid : N) (updateData : doc)
    (result : Mongo.update_result) : M unit :=
  if bool_decide (0 < Mongo.modifiedCount result) then
    effect (Emit "status-updated");;
    if is_final (updateData !! "status") then follow_up oid updateData
    else mret ()
  else mret ().

(** [PATCH /parcels/:id], the handler after its middleware *)
Definition update_parcel (id : option N) (updateData : doc) : M response :=
  try_catch
    (oid ← ObjectId id;
     result ← coll_updateOne Parcels (Mongo.by_id oid) updateData;
     on_modified oid updateData result;;
     mret (Response 200 (Updated result)))
    (λ _,
      effect (ConsoleError "Error in PATCH /parcels/:id:");;
      mret (Response 500 (Message "Internal server error"))).

Definition patch_parcel (cr : credentials) (id : option N) (updateData : doc)
    : M response :=
  authorized cr verifyDeliveryAgent (update_parcel id updateData).

(** [{ "deliveryAgent.email": email,
       status: { $nin: ["Delivered", "Failed"] } }] *)
Definition assigned_query (email : option string) (d : doc) : bool :=
  Mongo.eq_match (VStr <$> email) (d !! "deliveryAgent" ≫= JS.prop "email")
  && match d !! "status" with
     | None => true
     | Some v => bool_decide (v ∉ [VStr "Delivered"; VStr "Failed"])
     end.

(** [GET /parcels/assigned], the handler after its middleware *)
Definition list_assigned (email : option string) : M response :=
  try_catch
    (assignedParcels ← coll_find Parcels (assigned_query email);
     mret (Response 200 (Docs assignedParcels)))
    (λ _,
      effect (ConsoleError "Failed to fetch assigned parcels:");;
      mret (Response 500 (Message "Server error"))).

Definition get_assigned_parcels (cr : credentials) (email : option string)
    : M response :=
  authorized cr verifyDeliveryAgent (list_assigned email).

(** [GET /] *)
Definition get_root : M response :=
  mret (Response 200 (Text "Server is up and MongoDB is connected!")).

Definition handle (r : request) : M response :=
  match r with
  | PostUpdateStatus => post_update_status
  | PostUsers body => post_users body
  | PatchUserRole cr email body => patch_user_role cr email body
  | GetUsers cr => get_users cr
  | GetUserRole cr email => get_user_role cr email
  | PostDeliveryAgents cr body => post_delivery_agents cr body
  | DeleteDeliveryAgent cr id => delete_delivery_agent cr id
  | GetDeliveryAgents cr => get_delivery_agents cr
  | PostParcels cr body => post_parcels cr body
  | GetParcels cr email => get_parcels cr email
  | PatchParcel cr id body => patch_parcel cr id body
  | GetAssignedParcels cr email => get_assigned_parcels cr email
  | GetRoot => get_root
  end.

End Server.

(** ** Runs and reachable states *)

Definition answer {A} (m : M A) (s : state) : outcome A := (m s).1.
Definition after {A} (m : M A) (s : state) : state := (m s).2.

Definition step (s s' : state) : Prop :=
  ∃ w r, after (handle w r) s = s'.

Definition reachable : state → Prop := rtc step initial.

(** The events a run appends to the trace. *)
Definition news (s s' : state) : list event := drop (length (trace s)) (trace s').

Definition add_event (e : event) (s : state) : state :=
  State (parcels s) (users s) (deliveryAgents s) (trace s ++ [e]).

(** [console.error(line, err)] of a [catch] block. *)
Definition logged (line : string) (s : state) : state :=
  add_event (ConsoleError line) s.

(** A computation keeps the relation [R] between the state it starts from
    and the state it leaves. *)
Definition keeps {A} (R : relation state) (m : M A) : Prop :=
  ∀ s, R s (after m s).

Definition same_parcels : relation state := λ s s', parcels s' = parcels s.
Definition same_users : relation state := λ s s', users s' = users s.

(** Writes to the collection [c], and the event [e], seen through [R]. *)
Definition ignores_writes (R : relation state) (c : coll) : Prop :=
  ∀ s l, R s (write_coll c l s).
Definition ignores_event (R : relation state) (e : event) : Prop :=
  ∀ s, R s (add_event e s).

(** ** The transition table and terminal states of the specification *)

Module Spec.


(** Terminal state, glossary. *)
Definition terminal (status : option value) : bool :=
  bool_decide (status ∈ [Some (VStr "Delivered"); Some (VStr "Failed");
                          Some (VStr "Cancelled")]).

End Spec.

(** ** Notions used in the statements *)

(** The answers and console lines of the [catch] blocks, and the mails. *)
Definition internal_error : response :=
  Response 500 (Message "Internal server error").
Definition catch_line : string := "Error in PATCH /parcels/:id:".
Definition invalid_addresses : response :=
  Response 400 (BookingFailed "Invalid addresses").
Definition booking_failed : response :=
  Response 500 (BookingFailed "Booking failed").
Definition booking_line : string := "Error booking parcel:".

Definition status_mail (p body : doc) : mail :=
  Mail (p !! "email") ("Parcel Status Update: " +:+ JS.to_string (body !! "status")).
Definition confirmation (body : doc) : mail :=
  Mail (body !! "email") "Parcel Booking Confirmation".

(** What [getCoordinates(address + ", Dhaka")] comes to for a body field:
    the coordinates of the first hit, [null], or a rejected fetch. *)
Inductive resolution :=
  | Found (coords : value)
  | NotFound
  | LookupFailed.

Global Instance resolution_eq_dec : EqDecision resolution.
Proof. solve_decision. Defined.

Definition resolve (w : env) (address : option value) : resolution :=
  match nominatim w (JS.to_string address +:+ ", Dhaka") with
  | None => LookupFailed
  | Some [] => NotFound
  | Some ((lat, lon) :: _) =>
      Found (VObj (<["lat" := VNum lat]> (<["lng" := VNum lon]> ∅)))
  end.

(** The parcel [d] is an open assignment of the agent [e]. *)
Definition open_assignment (e : string) (d : doc) : Prop :=
  d !! "deliveryAgent" ≫= JS.prop "email" = Some (VStr e)
  ∧ Spec.terminal (d !! "status") = false.

(** The invariant of the data model: an agent holding an open assignment is
    [busy], and an [available] agent holds none. *)
Definition availability_consistent (s : state) : Prop :=
  ∀ u e, u ∈ users s →
    u !! "role" = Some (VStr "deliveryAgent") →
    u !! "email" = Some (VStr e) →
    ((∃ d, d ∈ parcels s ∧ open_assignment e d) →
       u !! "availability" = Some (VStr "busy"))
    ∧ (u !! "availability" = Some (VStr "available") →
       ¬ ∃ d, d ∈ parcels s ∧ open_assignment e d).

(** Every user record is as before or has had its availability set to
    [available]. *)
Definition only_released : relation state := λ s s',
  ∀ j, users s' !! j = users s !! j
       ∨ ∃ u, users s !! j = Some u
              ∧ users s' !! j = Some (<["availability" := VStr "available"]> u).

(** What the query of [GET /parcels/assigned] selects for the agent [e]. *)
Definition undelivered_of (e : string) (d : doc) : Prop :=
  d !! "deliveryAgent" ≫= JS.prop "email" = Some (VStr e)
  ∧ d !! "status" ≠ Some (VStr "Delivered")
  ∧ d !! "status" ≠ Some (VStr "Failed").

Global Instance undelivered_of_dec e d : Decision (undelivered_of e d).
Proof. unfold undelivered_of. apply _. Defined.

(** What the query of [GET /parcels?email=e] selects. *)
Definition owned_by (e : string) (d : doc) : Prop := d !! "email" = Some (VStr e).

Global Instance owned_by_dec e d : Decision (owned_by e d).
Proof. unfold owned_by. apply _. Defined.

(** The user collection after the availability of the user with the
    e-mail [e] has been set to [available]. *)
Definition released (e : string) (us : list doc) : list doc :=
  match list_find (λ u, Mongo.by_email (Some (VStr e)) u) us with
  | Some (j, u) => <[j := <["availability" := VStr "available"]> u]> us
  | None => us
  end.

(** Every stored parcel stays at its position with its [createdAt]. *)
Definition created_kept : relation state := λ s s',
  ∀ i d, parcels s !! i = Some d →
    ∃ d', parcels s' !! i = Some d' ∧ d' !! "createdAt" = d !! "createdAt".

(** ** Example data *)

(** A geocoder that knows two places. *)
Definition dhaka (address : string) : option (list (Z * Z)) :=
  if bool_decide (address = "Gulshan, Dhaka") then Some [(23, 90)%Z]
  else if bool_decide (address = "Mirpur, Dhaka") then Some [(24, 91)%Z]
  else Some [].

(** A world in which no awaited call rejects, and one in which exactly the
    call [c] does. *)
Definition calm (fresh : N) : env := Env dhaka 1000 fresh (λ _, false).
Definition failing (c : call) : env :=
  Env dhaka 1000 9 (λ c', bool_decide (c' = c)).

(** Users. *)
Definition agent_a : doc :=
  <["email" := VStr "agent@x"]> (<["role" := VStr "deliveryAgent"]>
  (<["availability" := VStr "available"]> ∅)).
Definition busy_agent_a : doc := <["availability" := VStr "busy"]> agent_a.
Definition customer_c : doc :=
  <["email" := VStr "cust@x"]> (<["role" := VStr "customer"]> ∅).

(** Parcels of the customer, each carried by the agent. *)
Definition parcel_in (status : string) : doc :=
  <["_id" := VOid 1]> (<["email" := VStr "cust@x"]>
  (<["status" := VStr status]>
  (<["createdAt" := VDate 500]>
  (<["deliveryAgent" := VObj {["email" := VStr "agent@x"]}]> ∅)))).
Definition assigned_parcel : doc := parcel_in "Assigned".

(** A store in which the busy agent carries the customer's parcel. *)
Definition out_for_delivery : state :=
  State [assigned_parcel] [customer_c; busy_agent_a] [] [].

Definition deliver : doc := {["status" := VStr "Delivered"]}.
Definition cancel : doc := {["status" := VStr "Cancelled"]}.
Definition redate : doc := {["createdAt" := VStr "2030-01-01T00:00:00.000Z"]}.
Definition assign : doc :=
  <["status" := VStr "Assigned"]>
  (<["deliveryAgent" := VObj {["email" := VStr "agent@x"]}]> ∅).
Definition booking : doc :=
  <["email" := VStr "cust@x"]> (<["pickupAddress" := VStr "Gulshan"]>
  (<["deliveryAddress" := VStr "Mirpur"]> ∅)).
Definition booking_with_agent : doc :=
  <["deliveryAgent" := VObj {["email" := VStr "agent@x"]}]> booking.
Definition nowhere : doc :=
  <["email" := VStr "cust@x"]> (<["pickupAddress" := VStr "Gulshan"]>
  (<["deliveryAddress" := VStr "Atlantis"]> ∅)).

(** Requests from the empty store: the agent and the customer register,
    the customer books, the agent takes the parcel, and then either delivers
    or cancels it. *)
Definition registered_agent : state :=
  after (handle (calm 1) (PostUsers agent_a)) initial.
Definition registered_both : state :=
  after (handle (calm 2) (PostUsers customer_c)) registered_agent.
Definition booked : state :=
  after (handle (calm 3) (PostParcels (Decoded "cust@x") booking)) registered_both.
Definition assigned : state :=
  after (handle (calm 4) (PatchParcel (Decoded "agent@x") (Some 3%N) assign)) booked.
Definition delivered : state :=
  after (handle (calm 5) (PatchParcel (Decoded "agent@x") (Some 3%N) deliver)) assigned.
Definition cancelled : state :=
  after (handle (calm 5) (PatchParcel (Decoded "agent@x") (Some 3%N) cancel)) assigned.


(** A geocoder that finds no place and whose fetch for Mirpur rejects, the
    world with it, and a booking from an unknown place to Mirpur. *)
Definition dhaka_down (address : string) : option (list (Z * Z)) :=
  if bool_decide (address = "Mirpur, Dhaka") then None else Some [].
Definition outage (fresh : N) : env := Env dhaka_down 1000 fresh (λ _, false).
Definition lost : doc :=
  <["email" := VStr "cust@x"]> (<["pickupAddress" := VStr "Atlantis"]>
  (<["deliveryAddress" := VStr "Mirpur"]> ∅)).

(** ** The earlier revision of the status update *)

Module Earlier.

(** [PATCH /parcels/:id] as the revision before authentication has it: the
    same write and broadcast, outside any [try] and with no follow-up. *)
Definition update_parcel (w : env) (id : option N) (updateData : doc)
    : M response :=
  oid ← ObjectId id;
  result ← coll_updateOne w Parcels (Mongo.by_id oid) updateData;
  (if bool_decide (0 < Mongo.modifiedCount result)
   then effect (Emit "status-updated") else mret ());;
  mret (Response 200 (Updated result)).

End Earlier.

(** ** Notions used in the further properties *)

(** The credentials a route asks for, and the role it asks for together
    with the message of its refusal. *)
Definition credentials_of (r : request) : option credentials :=
  match r with
  | PostUpdateStatus | PostUsers _ | GetRoot => None
  | PatchUserRole cr _ _ | GetUsers cr | GetUserRole cr _
  | PostDeliveryAgents cr _ | DeleteDeliveryAgent cr _ | GetDeliveryAgents cr
  | PostParcels cr _ | GetParcels cr _ | PatchParcel cr _ _
  | GetAssignedParcels cr _ => Some cr
  end.

Definition required_role (r : request) : option (string * string) :=
  match r with
  | PatchUserRole _ _ _ | GetUsers _ | DeleteDeliveryAgent _ _
  | GetDeliveryAgents _ => Some ("admin", "Forbidden Access")
  | PostParcels _ _ => Some ("customer", "Only users can access this route")
  | PatchParcel _ _ _ | GetAssignedParcels _ _ =>
      Some ("deliveryAgent", "Only members can access this route")
  | _ => None
  end.

Definition is_get (r : request) : bool :=
  match r with
  | GetUsers _ | GetUserRole _ _ | GetDeliveryAgents _ | GetParcels _ _
  | GetAssignedParcels _ _ | GetRoot => true
  | _ => false
  end.

(** The user found for the e-mail [e] has the role [role]. *)
Definition has_role (s : state) (e role : string) : Prop :=
  ∃ u, Mongo.findOne (Mongo.by_email (Some (VStr e))) (users s) = Some u
       ∧ u !! "role" = Some (VStr role).

(** The three collections are as before. *)
Definition same_stores : relation state := λ s s',
  parcels s' = parcels s ∧ users s' = users s
  ∧ deliveryAgents s' = deliveryAgents s.

(** The trace has only grown. *)
Definition trace_extends : relation state := λ s s',
  ∃ l, trace s' = trace s ++ l.

(** No two documents of a collection share an [_id]. *)
Definition ids_distinct (c : list doc) : Prop :=
  NoDup ((λ d : doc, d !! "_id") <$> c).

Definition all_ids_distinct (s : state) : Prop :=
  ids_distinct (parcels s) ∧ ids_distinct (users s)
  ∧ ids_distinct (deliveryAgents s).

(** The fields every booked parcel is given. *)
Definition booked_fields : list string :=
  ["status"; "createdAt"; "_id"; "pickup"; "delivery"].

Definition well_formed_parcel (d : doc) : Prop :=
  ∀ k, k ∈ booked_fields → is_Some (d !! k).

Definition parcels_well_formed (s : state) : Prop :=
  Forall well_formed_parcel (parcels s).

(** Every stored parcel and user is still stored, at its position and under
    its [_id]. *)
Definition nothing_lost : relation state := λ s s',
  (∀ i d, parcels s !! i = Some d →
     ∃ d', parcels s' !! i = Some d' ∧ d' !! "_id" = d !! "_id")
  ∧ (∀ i u, users s !! i = Some u →
       ∃ u', users s' !! i = Some u' ∧ u' !! "_id" = u !! "_id").

(** An invariant, as a relation between the ends of a run. *)
Definition preserves (I : state → Prop) : relation state := λ s s', I s → I s'.

(** Further example data. *)
Definition admin_z : doc :=
  <["email" := VStr "admin@x"]> (<["role" := VStr "admin"]> ∅).
Definition applicant : doc :=
  <["email" := VStr "new@x"]> (<["name" := VStr "N"]> ∅).
Definition unassigned_parcel : doc :=
  <["_id" := VOid 2]> (<["email" := VStr "cust@x"]>
  (<["status" := VStr "Pending"]> ∅)).
Definition office : state :=
  State [assigned_parcel; unassigned_parcel]
        [customer_c; busy_agent_a; admin_z]
        [<["_id" := VOid 7]> applicant] [].

(** * Properties *)

(** ** Basic facts about the collection operations *)

Section MongoFacts.

Implicit Types (c : list doc) (d upd : doc) (p : doc → bool).

Lemma updateOne_unmatched p upd c :
  list_find (λ d, p d) c = None →
  Mongo.updateOne p upd c = Some (Mongo.UpdateResult 0 0, c).
Proof. intros H. unfold Mongo.updateOne. by rewrite H. Qed.

Lemma updateOne_matched p upd c i d :
  list_find (λ d, p d) c = Some (i, d) →
  Mongo.changes_id upd d = false →
  Mongo.updateOne p upd c =
    Some (Mongo.UpdateResult 1 (if decide (upd ∪ d = d) then 0 else 1),
          <[i := upd ∪ d]> c).
Proof. intros H Hid. unfold Mongo.updateOne. by rewrite H, Hid. Qed.

Lemma updateOne_refused p upd c i d :
  list_find (λ d, p d) c = Some (i, d) →
  Mongo.changes_id upd d = true →
  Mongo.updateOne p upd c = None.
Proof. intros H Hid. unfold Mongo.updateOne. by rewrite H, Hid. Qed.

Lemma updateOne_length p upd c r c' :
  Mongo.updateOne p upd c = Some (r, c') → length c' = length c.
Proof.
  unfold Mongo.updateOne. intros H.
  destruct (list_find _ c) as [[i d]|]; [|by simplify_eq].
  destruct (Mongo.changes_id upd d); simplify_eq.
  by rewrite length_insert.
Qed.

(** After an update every position holds either the document it held or
    that document with the fields of [upd] set. *)
Lemma updateOne_pointwise p upd c r c' j :
  Mongo.updateOne p upd c = Some (r, c') →
  c' !! j = c !! j ∨ ∃ d, c !! j = Some d ∧ p d = true ∧ c' !! j = Some (upd ∪ d).
Proof.
  unfold Mongo.updateOne. intros H.
  destruct (list_find _ c) as [[i d]|] eqn:Hf; [|simplify_eq; by left].
  destruct (Mongo.changes_id upd d); simplify_eq.
  apply list_find_Some in Hf as (Hi & Hp & _).
  destruct (decide (i = j)) as [->|Hne].
  - right. exists d. split_and!; [done| by apply Is_true_true |].
    apply list_lookup_insert_eq. by eapply lookup_lt_Some.
  - left. by apply list_lookup_insert_ne.
Qed.

Lemma union_lookup_set upd d k v :
  upd !! k = Some v → (upd ∪ d) !! k = Some v.
Proof. intros H. by apply lookup_union_Some_l. Qed.

Lemma union_lookup_unset upd d k :
  upd !! k = None → (upd ∪ d) !! k = d !! k.
Proof. intros H. by apply lookup_union_r. Qed.

End MongoFacts.

(** ** Running the monad *)

Section Run.

Context {A B : Type}.
Implicit Types (m : M A) (f : A → M B).

Lemma bind_ok m f s a s1 : m s = (Ok a, s1) → (m ≫= f) s = f a s1.
Proof. unfold mbind, M_bind. by intros ->. Qed.

Lemma bind_throw m f s e s1 : m s = (Throw e, s1) → (m ≫= f) s = (Throw e, s1).
Proof. unfold mbind, M_bind. by intros ->. Qed.

Lemma try_ok m (h : error → M A) s a s1 :
  m s = (Ok a, s1) → try_catch m h s = (Ok a, s1).
Proof. unfold try_catch. by intros ->. Qed.

Lemma try_throw m (h : error → M A) s e s1 :
  m s = (Throw e, s1) → try_catch m h s = h e s1.
Proof. unfold try_catch. by intros ->. Qed.

End Run.

Ltac run_bind :=
  first
    [ erewrite bind_ok by (first [eassumption | reflexivity])
    | erewrite bind_throw by (first [eassumption | reflexivity]) ].

(** ** Relations kept by a computation *)

Global Instance same_parcels_po : PreOrder same_parcels.
Proof. split; unfold same_parcels; [done | intros x y z; congruence]. Qed.
Global Instance same_users_po : PreOrder same_users.
Proof. split; unfold same_users; [done | intros x y z; congruence]. Qed.

Section Keeps.

Context (w : env) (R : relation state) `{!PreOrder R}.

Lemma keeps_ret {A} (a : A) : keeps R (mret a).
Proof. intros s. reflexivity. Qed.

Lemma keeps_throw {A} e : keeps R (@throw A e).
Proof. intros s. reflexivity. Qed.

Lemma keeps_get {A} (f : state → A) : keeps R (get f).
Proof. intros s. reflexivity. Qed.

Lemma keeps_bind {A B} (m : M A) (f : A → M B) :
  keeps R m → (∀ a, keeps R (f a)) → keeps R (m ≫= f).
Proof.
  intros Hm Hf s. specialize (Hm s). unfold after, mbind, M_bind in *.
  destruct (m s) as [[a|e] s1]; simpl in *; [|done].
  etrans; [exact Hm | apply Hf].
Qed.

Lemma keeps_try_catch {A} (m : M A) h :
  keeps R m → (∀ e, keeps R (h e)) → keeps R (try_catch m h).
Proof.
  intros Hm Hh s. specialize (Hm s). unfold after, try_catch in *.
  destruct (m s) as [[a|e] s1]; simpl in *; [done|].
  etrans; [exact Hm | apply Hh].
Qed.

Lemma keeps_await {A} c (op : M A) : keeps R op → keeps R (await w c op).
Proof. intros H. unfold await. destruct (rejects w c); [apply keeps_throw | done]. Qed.

Lemma keeps_findOne c p : keeps R (coll_findOne w c p).
Proof. apply keeps_await, keeps_get. Qed.

Lemma keeps_find c p : keeps R (coll_find w c p).
Proof. apply keeps_await, keeps_get. Qed.

Lemma keeps_ObjectId id : keeps R (ObjectId id).
Proof. destruct id; [apply keeps_ret | apply keeps_throw]. Qed.

Lemma keeps_getCoordinates a : keeps R (getCoordinates w a).
Proof.
  unfold getCoordinates.
  destruct (nominatim w a) as [[|[lat lon] ?]|];
    [apply keeps_ret | apply keeps_ret | apply keeps_throw].
Qed.

End Keeps.

Create HintDb keeps.

Global Hint Resolve keeps_ret keeps_throw keeps_get keeps_findOne keeps_find
  keeps_ObjectId keeps_getCoordinates : keeps.

Ltac keeps_step :=
  first
    [ progress intros
    | solve [eauto with keeps typeclass_instances]
    | lazymatch goal with
      | |- keeps _ (mbind _ _) => apply keeps_bind; [apply _ | |]
      | |- keeps _ (try_catch _ _) => apply keeps_try_catch; [apply _ | |]
      | |- keeps _ (await _ _ _) => apply keeps_await; [apply _ |]
      | |- keeps _ (if ?b then _ else _) => destruct b
      | |- keeps _ (match ?x with _ => _ end) => destruct x
      end ].

Ltac keeps_auto := repeat keeps_step.

Section Writes.

Context (w : env) (R : relation state) `{!PreOrder R}.

Lemma keeps_effect e : ignores_event R e → keeps R (effect e).
Proof. intros H s. apply H. Qed.

Lemma keeps_updateOne c p upd :
  ignores_writes R c → keeps R (coll_updateOne w c p upd).
Proof.
  intros H. apply keeps_await; [done|]. intros s. unfold after.
  destruct (Mongo.updateOne _ _ _) as [[r l]|]; simpl; [apply H | reflexivity].
Qed.

Lemma keeps_insertOne c d :
  ignores_writes R c → keeps R (coll_insertOne w c d).
Proof.
  intros H. apply keeps_await; [done|]. intros s. unfold after.
  destruct (Mongo.insertOne _ _ _) as [[r l]|]; simpl; [apply H | reflexivity].
Qed.

Lemma keeps_deleteOne c p :
  ignores_writes R c → keeps R (coll_deleteOne w c p).
Proof.
  intros H. apply keeps_await; [done|]. intros s. unfold after.
  destruct (Mongo.deleteOne _ _) as [n l]; simpl. apply H.
Qed.

Lemma keeps_sendMail m : ignores_event R (SendMail m) → keeps R (sendMail w m).
Proof.
  intros H. unfold sendMail. apply keeps_bind; [done | by apply keeps_effect |].
  intros _. apply keeps_await; [done | by apply keeps_ret].
Qed.

End Writes.

Lemma same_parcels_event e : ignores_event same_parcels e.
Proof. by intros s. Qed.
Lemma same_users_event e : ignores_event same_users e.
Proof. by intros s. Qed.
Lemma same_parcels_writes c : c ≠ Parcels → ignores_writes same_parcels c.
Proof. intros H s l. by destruct c. Qed.
Lemma same_users_writes c : c ≠ Users → ignores_writes same_users c.
Proof. intros H s l. by destruct c. Qed.

Global Hint Resolve keeps_effect keeps_updateOne keeps_insertOne keeps_deleteOne
  keeps_sendMail same_parcels_event same_users_event
  same_parcels_writes same_users_writes : keeps.
Global Hint Extern 1 (_ ≠ _) => discriminate : keeps.

(** *** What the pieces of the status update leave alone *)

Section UpdateFrames.

Context (w : env).

Lemma release_agent_parcels e : keeps same_parcels (release_agent w e).
Proof. unfold release_agent. keeps_auto. Qed.

Lemma follow_up_parcels oid upd : keeps same_parcels (follow_up w oid upd).
Proof. unfold follow_up, release_agent. keeps_auto. Qed.

Lemma on_modified_parcels oid upd r : keeps same_parcels (on_modified w oid upd r).
Proof. unfold on_modified, follow_up, release_agent. keeps_auto. Qed.

End UpdateFrames.

(** *** Step-by-step runs of the status update *)

Section UpdateRuns.

Context (w : env).

Lemma coll_updateOne_run c p upd s :
  rejects w (UpdateOne c) = false →
  coll_updateOne w c p upd s =
    match Mongo.updateOne p upd (read_coll c s) with
    | None => (Throw (WriteError c), s)
    | Some (r, l) => (Ok r, write_coll c l s)
    end.
Proof. intros H. unfold coll_updateOne, await. by rewrite H. Qed.

Lemma coll_updateOne_rejected c p upd s :
  rejects w (UpdateOne c) = true →
  coll_updateOne w c p upd s = (Throw (Rejected (UpdateOne c)), s).
Proof. intros H. unfold coll_updateOne, await. by rewrite H. Qed.

Lemma update_parcel_run oid body s r s1 :
  coll_updateOne w Parcels (Mongo.by_id oid) body s = (Ok r, s1) →
  update_parcel w (Some oid) body s =
    match on_modified w oid body r s1 with
    | (Ok _, s2) => (Ok (Response 200 (Updated r)), s2)
    | (Throw _, s2) => (Ok internal_error, logged "Error in PATCH /parcels/:id:" s2)
    end.
Proof.
  intros Hu. unfold update_parcel.
  destruct (on_modified w oid body r s1) as [[[]|e] s2] eqn:Hm.
  - erewrite try_ok; [done|]. simpl. by repeat run_bind.
  - erewrite try_throw; [done|]. simpl. by repeat run_bind.
Qed.

Lemma update_parcel_write_failed oid body s e s1 :
  coll_updateOne w Parcels (Mongo.by_id oid) body s = (Throw e, s1) →
  update_parcel w (Some oid) body s =
    (Ok internal_error, logged "Error in PATCH /parcels/:id:" s1).
Proof.
  intros Hu. unfold update_parcel.
  erewrite try_throw; [done|]. simpl. by repeat run_bind.
Qed.

Lemma update_parcel_bad_id body s :
  update_parcel w None body s =
    (Ok internal_error, logged "Error in PATCH /parcels/:id:" s).
Proof. done. Qed.

End UpdateRuns.

Lemma update_parcel_stores_merge w oid body s i d :
  rejects w (UpdateOne Parcels) = false →
  list_find (λ x, Mongo.by_id oid x) (parcels s) = Some (i, d) →
  Mongo.changes_id body d = false →
  parcels (after (update_parcel w (Some oid) body) s) = <[i := body ∪ d]> (parcels s).
Proof.
  intros Hw Hf Hid.
  pose proof (coll_updateOne_run w Parcels (Mongo.by_id oid) body s Hw) as Hu.
  simpl in Hu. rewrite (updateOne_matched _ _ _ _ _ Hf Hid) in Hu.
  unfold after. rewrite (update_parcel_run _ _ _ _ _ _ Hu).
  pose proof (on_modified_parcels w oid body
    (Mongo.UpdateResult 1 (if decide (body ∪ d = d) then 0 else 1))
    (State (<[i:=body ∪ d]> (parcels s)) (users s) (deliveryAgents s) (trace s)))
    as Hp.
  unfold same_parcels, after in Hp.
  by destruct (on_modified _ _ _ _ _) as [[[]|e] s2].
Qed.

(** ** The example states are reachable *)

Lemma reachable_step w r s : reachable s → reachable (after (handle w r) s).
Proof. intros H. eapply rtc_r; [exact H|]. by exists w, r. Qed.

Lemma reachable_examples :
  reachable registered_both ∧ reachable booked ∧ reachable assigned
  ∧ reachable delivered ∧ reachable cancelled.
Proof.
  assert (reachable registered_both) as H2.
  { do 2 apply reachable_step. apply rtc_refl. }
  assert (reachable assigned) as H4 by (by do 2 apply reachable_step).
  split_and!; [done | by apply reachable_step | done
              | by apply reachable_step | by apply reachable_step].
Qed.

(** ** C1: status transitions *)




(** ** C2: follow-up of a transition into Delivered or Failed *)

Section FollowUpRuns.

Context (w : env).

Lemma sendMail_run m s :
  sendMail w m s =
    (if rejects w Transport then Throw (Rejected Transport) else Ok (),
     add_event (SendMail m) s).
Proof.
  unfold sendMail, await. erewrite bind_ok by reflexivity.
  by destruct (rejects w Transport).
Qed.

Lemma coll_findOne_run c p s :
  rejects w (FindOne c) = false →
  coll_findOne w c p s = (Ok (Mongo.findOne p (read_coll c s)), s).
Proof. intros H. unfold coll_findOne, await. by rewrite H. Qed.

(** The availability write never touches [_id], so the store accepts it. *)
Lemma release_agent_run e s :
  rejects w (UpdateOne Users) = false →
  ∃ r l, Mongo.updateOne (Mongo.by_email e)
           {["availability" := VStr "available"]} (users s) = Some (r, l)
         ∧ release_agent w e s = (Ok r, write_coll Users l s).
Proof.
  intros H. unfold release_agent. rewrite coll_updateOne_run by done. simpl.
  unfold Mongo.updateOne.
  destruct (list_find _ (users s)) as [[j u]|]; [|by eauto].
  unfold Mongo.changes_id. rewrite lookup_singleton_ne by done. eauto.
Qed.

Lemma on_modified_final oid body r s :
  0 < Mongo.modifiedCount r →
  is_final (body !! "status") = true →
  on_modified w oid body r s =
    follow_up w oid body (add_event (Emit "status-updated") s).
Proof.
  intros Hm Hfin. unfold on_modified.
  rewrite bool_decide_eq_true_2 by done.
  erewrite bind_ok by reflexivity. by rewrite Hfin.
Qed.

Lemma on_modified_other oid body r s :
  0 < Mongo.modifiedCount r →
  is_final (body !! "status") = false →
  on_modified w oid body r s = (Ok (), add_event (Emit "status-updated") s).
Proof.
  intros Hm Hfin. unfold on_modified.
  rewrite bool_decide_eq_true_2 by done.
  erewrite bind_ok by reflexivity. by rewrite Hfin.
Qed.

Lemma on_modified_unmodified oid body r s :
  Mongo.modifiedCount r = 0 → on_modified w oid body r s = (Ok (), s).
Proof.
  intros Hm. unfold on_modified. rewrite bool_decide_eq_false_2; [done | lia].
Qed.

Lemma follow_up_with_agent oid body s p e r l :
  rejects w (FindOne Parcels) = false →
  Mongo.findOne (Mongo.by_id oid) (parcels s) = Some p →
  agent_email (Some p) = Some e →
  JS.truthy (Some e) = true →
  release_agent w (Some e) s = (Ok r, write_coll Users l s) →
  follow_up w oid body s =
    (if rejects w Transport then Throw (Rejected Transport) else Ok (),
     let s1 := add_event (SendMail (status_mail p body)) (write_coll Users l s) in
     if rejects w Transport then s1
     else add_event (ConsoleLog "Status email sent to") s1).
Proof.
  intros Hf Hp He Ht Hr. unfold follow_up.
  erewrite bind_ok by (by apply coll_findOne_run).
  simpl read_coll. rewrite Hp. cbv zeta. rewrite He, Ht.
  erewrite bind_ok; last first.
  { erewrite bind_ok by exact Hr. reflexivity. }
  fold (status_mail p body).
  destruct (rejects w Transport) eqn:Hrej.
  - erewrite bind_throw; [done|]. by rewrite sendMail_run, Hrej.
  - erewrite bind_ok; [done|]. by rewrite sendMail_run, Hrej.
Qed.

Lemma follow_up_without_agent oid body s p :
  rejects w (FindOne Parcels) = false →
  Mongo.findOne (Mongo.by_id oid) (parcels s) = Some p →
  JS.truthy (agent_email (Some p)) = false →
  follow_up w oid body s =
    (if rejects w Transport then Throw (Rejected Transport) else Ok (),
     let s1 := add_event (SendMail (status_mail p body)) s in
     if rejects w Transport then s1
     else add_event (ConsoleLog "Status email sent to") s1).
Proof.
  intros Hf Hp Ht. unfold follow_up.
  erewrite bind_ok by (by apply coll_findOne_run).
  simpl read_coll. rewrite Hp. cbv zeta. rewrite Ht.
  erewrite bind_ok by reflexivity.
  fold (status_mail p body).
  destruct (rejects w Transport) eqn:Hrej.
  - erewrite bind_throw; [done|]. by rewrite sendMail_run, Hrej.
  - erewrite bind_ok; [done|]. by rewrite sendMail_run, Hrej.
Qed.

End FollowUpRuns.

(** The stored parcels stay as they are when the id is malformed, the write
    is rejected or refused, or no parcel has the id. *)
Lemma update_parcel_leaves_parcels w id body s :
  id = None
  ∨ rejects w (UpdateOne Parcels) = true
  ∨ (∃ oid, id = Some oid
       ∧ (list_find (λ x, Mongo.by_id oid x) (parcels s) = None
          ∨ ∃ i d, list_find (λ x, Mongo.by_id oid x) (parcels s) = Some (i, d)
                   ∧ Mongo.changes_id body d = true)) →
  parcels (after (update_parcel w id body) s) = parcels s.
Proof.
  intros [->|[Hrej|(oid & -> & Hcase)]].
  - unfold after. by rewrite update_parcel_bad_id.
  - destruct id as [oid|]; unfold after; [|by rewrite update_parcel_bad_id].
    by rewrite (update_parcel_write_failed w oid body s _ s
                  (coll_updateOne_rejected w _ _ _ _ Hrej)).
  - unfold after. destruct (rejects w (UpdateOne Parcels)) eqn:Hw.
    { by rewrite (update_parcel_write_failed w oid body s _ s
                    (coll_updateOne_rejected w _ _ _ _ Hw)). }
    pose proof (coll_updateOne_run w Parcels (Mongo.by_id oid) body s Hw) as Hu.
    simpl in Hu. destruct Hcase as [Hnone|(i & d & Hf & Hid)].
    + rewrite (updateOne_unmatched _ _ _ Hnone) in Hu.
      rewrite (update_parcel_run _ _ _ _ _ _ Hu).
      by rewrite on_modified_unmodified.
    + rewrite (updateOne_refused _ _ _ _ _ Hf Hid) in Hu.
      by rewrite (update_parcel_write_failed _ _ _ _ _ _ Hu).
Qed.

(** A modifying update that does not ask for [Delivered] or [Failed] only
    emits the broadcast. *)
Lemma update_parcel_plain w oid body s i d :
  rejects w (UpdateOne Parcels) = false →
  list_find (λ x, Mongo.by_id oid x) (parcels s) = Some (i, d) →
  Mongo.changes_id body d = false →
  body ∪ d ≠ d →
  is_final (body !! "status") = false →
  update_parcel w (Some oid) body s =
    (Ok (Response 200 (Updated (Mongo.UpdateResult 1 1))),
     add_event (Emit "status-updated")
       (write_coll Parcels (<[i := body ∪ d]> (parcels s)) s)).
Proof.
  intros Hw Hf Hid Hne Hfin.
  pose proof (coll_updateOne_run w Parcels (Mongo.by_id oid) body s Hw) as Hu.
  simpl in Hu. rewrite (updateOne_matched _ _ _ _ _ Hf Hid) in Hu.
  rewrite decide_False in Hu by done.
  rewrite (update_parcel_run _ _ _ _ _ _ Hu).
  by rewrite on_modified_other by (done || simpl; lia).
Qed.

Section CommittedRecord.

Implicit Types (c : list doc) (d body : doc).

Lemma by_id_after_set oid body d :
  Mongo.by_id oid d = true →
  Mongo.changes_id body d = false →
  Mongo.by_id oid (body ∪ d) = true.
Proof.
  unfold Mongo.by_id, Mongo.changes_id.
  intros Hd%bool_decide_eq_true Hc. apply bool_decide_eq_true.
  destruct (body !! "_id") as [v|] eqn:Hb.
  - apply bool_decide_eq_false in Hc.
    destruct (decide (d !! "_id" = Some v)) as [Heq|]; [|done].
    rewrite (union_lookup_set _ _ _ _ Hb). congruence.
  - by rewrite union_lookup_unset.
Qed.

Lemma findOne_after_update (p : doc → bool) c i d d' :
  list_find (λ x, p x) c = Some (i, d) →
  p d' = true →
  Mongo.findOne p (<[i := d']> c) = Some d'.
Proof.
  intros (Hi & Hp & Hmin)%list_find_Some Hd'. unfold Mongo.findOne.
  assert (list_find (λ x, p x) (<[i := d']> c) = Some (i, d')) as ->; [|done].
  apply list_find_Some. split_and!.
  - apply list_lookup_insert_eq. by eapply lookup_lt_Some.
  - by apply Is_true_true.
  - intros j y Hj Hlt. rewrite list_lookup_insert_ne in Hj by lia. by eapply Hmin.
Qed.

End CommittedRecord.




(** ** C3: failures of the follow-up steps *)

Lemma follow_up_release_rejected w oid body s p :
  rejects w (FindOne Parcels) = false →
  Mongo.findOne (Mongo.by_id oid) (parcels s) = Some p →
  JS.truthy (agent_email (Some p)) = true →
  rejects w (UpdateOne Users) = true →
  follow_up w oid body s = (Throw (Rejected (UpdateOne Users)), s).
Proof.
  intros Hf Hp Ht Hr. unfold follow_up.
  erewrite bind_ok by (by apply coll_findOne_run).
  simpl read_coll. rewrite Hp. cbv zeta. rewrite Ht.
  erewrite bind_throw; [done|].
  erewrite bind_throw; [done|]. unfold release_agent.
  by rewrite coll_updateOne_rejected.
Qed.

(** C3, counterexample: the availability release rejects after the parcel
    write has committed.  The caller is answered 500 and no status mail is
    handed to the transport, although the parcel stays [Delivered]. *)
Lemma release_failure_surfaces :
  let run := handle (failing (UpdateOne Users))
               (PatchParcel (Decoded "agent@x") (Some 3%N) deliver) in
  reachable assigned
  ∧ answer run assigned = Ok internal_error
  ∧ (parcels (after run assigned) !! 0) ≫= (.!! "status") = Some (VStr "Delivered")
  ∧ news assigned (after run assigned)
      = [Emit "status-updated"; ConsoleError catch_line].
Proof. split; [apply reachable_examples | vm_compute; done]. Qed.

(** C3, as the code has it: once the parcel write of a request with plain
    field names has committed with status [Delivered] or [Failed], a rejected
    availability release or a rejected mail dispatch is caught by the
    handler's one [try]/[catch], written to the console and answered with
    500.  The committed parcel write and the broadcast stay; a rejected
    release skips the mail, a rejected mail leaves the release done before
    it in place. *)
Theorem follow_up_failure_answered_500 w oid body s i d :
  Mongo.plain body = true →
  rejects w (UpdateOne Parcels) = false →
  rejects w (FindOne Parcels) = false →
  list_find (λ x, Mongo.by_id oid x) (parcels s) = Some (i, d) →
  Mongo.changes_id body d = false →
  body ∪ d ≠ d →
  is_final (body !! "status") = true →
  let run := update_parcel w (Some oid) body in
  let agent := agent_email (Some (body ∪ d)) in
  parcels (after run s) = <[i := body ∪ d]> (parcels s)
  ∧ (JS.truthy agent = true → rejects w (UpdateOne Users) = true →
       answer run s = Ok internal_error
       ∧ users (after run s) = users s
       ∧ trace (after run s) =
           trace s ++ [Emit "status-updated"; ConsoleError catch_line])
  ∧ (rejects w (UpdateOne Users) = false → rejects w Transport = true →
       answer run s = Ok internal_error
       ∧ (∀ e, agent = Some (VStr e) → e ≠ "" →
            users (after run s) = released e (users s))
       ∧ trace (after run s) =
           trace s ++ [Emit "status-updated";
                       SendMail (status_mail (body ∪ d) body);
                       ConsoleError catch_line]).
Proof.
  intros _ Hw Hfo Hf Hid Hne Hfin run agent.
  pose proof (coll_updateOne_run w Parcels (Mongo.by_id oid) body s Hw) as Hu.
  simpl in Hu. rewrite (updateOne_matched _ _ _ _ _ Hf Hid) in Hu.
  rewrite decide_False in Hu by done.
  set (s1 := State (<[i:=body ∪ d]> (parcels s)) (users s) (deliveryAgents s) (trace s)) in *.
  set (s2 := add_event (Emit "status-updated") s1).
  assert (Mongo.findOne (Mongo.by_id oid) (parcels s2) = Some (body ∪ d)) as Hp.
  { apply (findOne_after_update _ _ _ d); [done|].
    apply by_id_after_set; [|done].
    apply list_find_Some in Hf as (_ & Hd & _). by apply Is_true_true. }
  assert (update_parcel w (Some oid) body s =
    match follow_up w oid body s2 with
    | (Ok _, s3) => (Ok (Response 200 (Updated (Mongo.UpdateResult 1 1))), s3)
    | (Throw _, s3) => (Ok internal_error, logged catch_line s3)
    end) as Hrun.
  { rewrite (update_parcel_run _ _ _ _ _ _ Hu).
    by rewrite on_modified_final by (done || simpl; lia). }
  unfold run, answer, after. rewrite Hrun. clear Hrun.
  split_and!.
  - pose proof (follow_up_parcels w oid body s2) as Hk.
    unfold same_parcels, after in Hk.
    by destruct (follow_up w oid body s2) as [[[]|?] s3].
  - intros Ht Hrej.
    rewrite (follow_up_release_rejected w oid body s2 _ Hfo Hp Ht Hrej).
    simpl. by rewrite <- app_assoc.
  - intros Hwu Hrej.
    destruct (JS.truthy agent) eqn:Ht.
    + destruct agent as [e|] eqn:He; [|done].
      destruct (release_agent_run w (Some e) s2 Hwu) as (r & l & Hl & Hr).
      rewrite (follow_up_with_agent w oid body s2 _ e r l) by done.
      rewrite Hrej. simpl. rewrite <- !app_assoc. simpl.
      split_and!; [done | | done].
      intros e' [= ->] _. simpl in Hl. unfold released.
      destruct (list_find _ (users s)) as [[j u]|] eqn:Hj.
      * rewrite (updateOne_matched _ _ _ j u) in Hl; [|done|].
        -- simplify_eq. by rewrite <- insert_union_singleton_l.
        -- unfold Mongo.changes_id. by rewrite lookup_singleton_ne.
      * rewrite (updateOne_unmatched _ _ _ Hj) in Hl. by simplify_eq.
    + rewrite (follow_up_without_agent w oid body s2 _ Hfo Hp Ht).
      rewrite Hrej. simpl. rewrite <- !app_assoc. simpl.
      split_and!; [done | | done].
      intros e' He' Hne'. exfalso. rewrite He' in Ht.
      simpl in Ht. by destruct (String.eqb_spec e' "").
Qed.

Lemma follow_up_failure_answered_500_witness :
  let run := update_parcel (failing Transport) (Some 1%N) deliver in
  answer run out_for_delivery = Ok internal_error
  ∧ (users (after run out_for_delivery) !! 1) ≫= (.!! "availability")
      = Some (VStr "available")
  ∧ (parcels (after run out_for_delivery) !! 0) ≫= (.!! "status")
      = Some (VStr "Delivered").
Proof.
  destruct (follow_up_failure_answered_500 (failing Transport) 1%N deliver
              out_for_delivery 0 assigned_parcel) as (Hp & _ & Hmail);
    try reflexivity.
  { intros H. apply (f_equal (lookup "status")) in H. vm_compute in H. discriminate. }
  destruct Hmail as (Ha & Hu & _); try reflexivity.
  split_and!.
  - exact Ha.
  - rewrite (Hu "agent@x"); [reflexivity | reflexivity | discriminate].
  - rewrite Hp. reflexivity.
Defined.

(** ** C4: availability and open assignments *)

Global Instance only_released_po : PreOrder only_released.
Proof.
  split.
  - intros s j. by left.
  - intros x y z Hxy Hyz j.
    destruct (Hyz j) as [Hz|(u & Hy & Hz)].
    + rewrite Hz. apply Hxy.
    + destruct (Hxy j) as [Hx|(u0 & Hx & Hy')].
      * right. exists u. by rewrite <- Hx.
      * right. exists u0. split; [done|]. rewrite Hz.
        rewrite Hy' in Hy. simplify_eq. by rewrite insert_insert_eq.
Qed.

Lemma same_users_only_released s s' : same_users s s' → only_released s s'.
Proof. intros H j. left. by rewrite H. Qed.

Lemma only_released_event e : ignores_event only_released e.
Proof. intros s j. by left. Qed.

Lemma only_released_writes c : c ≠ Users → ignores_writes only_released c.
Proof. intros H s l. apply same_users_only_released. by apply same_users_writes. Qed.

Global Hint Resolve only_released_event only_released_writes : keeps.

Lemma release_agent_only_released w e : keeps only_released (release_agent w e).
Proof.
  unfold release_agent. apply keeps_await; [apply _|]. intros s j. unfold after.
  destruct (Mongo.updateOne _ _ _) as [[r l]|] eqn:Hu; simpl; [|by left].
  destruct (updateOne_pointwise _ _ _ _ _ j Hu) as [?|(u & Hj & _ & Hj')]; [by left|].
  right. exists u. by rewrite insert_union_singleton_l.
Qed.

Global Hint Resolve release_agent_only_released : keeps.

Lemma update_parcel_users_assign w id body :
  is_final (body !! "status") = false →
  keeps same_users (update_parcel w id body).
Proof.
  intros Hfin. unfold update_parcel, on_modified. rewrite Hfin. keeps_auto.
Qed.

Lemma verifyRole_same_users w role denial email :
  keeps same_users (verifyRole w role denial email).
Proof. unfold verifyRole. keeps_auto. Qed.

Lemma authorized_keeps (R : relation state) `{!PreOrder R} cr check h :
  (∀ e, keeps R (check e)) → keeps R h → keeps R (authorized cr check h).
Proof.
  intros Hc Hh. unfold authorized, authenticated.
  destruct (verifyFirebaseToken cr); keeps_auto.
Qed.

(** C4, counterexample: an agent registered as [available] takes a parcel
    through the status update; the state is reachable and the agent is still
    [available] while holding the open assignment. *)
Lemma assignment_leaves_agent_available :
  reachable assigned ∧ ¬ availability_consistent assigned.
Proof.
  split; [apply reachable_examples|].
  intros H.
  assert (∃ u d, users assigned !! 0 = Some u ∧ parcels assigned !! 0 = Some d
                 ∧ u !! "role" = Some (VStr "deliveryAgent")
                 ∧ u !! "email" = Some (VStr "agent@x")
                 ∧ u !! "availability" = Some (VStr "available")
                 ∧ open_assignment "agent@x" d)
    as (u & d & Hu & Hd & Hr & He & Ha & Ho).
  { eexists _, _. split_and!; [vm_compute; reflexivity .. |].
    split; vm_compute; reflexivity. }
  destruct (H u "agent@x") as [Hbusy _];
    [by eapply list_elem_of_lookup_2 | done | done |].
  rewrite Hbusy in Ha; [done|].
  exists d. split; [by eapply list_elem_of_lookup_2 | done].
Qed.

Ltac unfold_routes :=
  unfold post_update_status, post_users, patch_user_role, get_users,
    get_user_role, post_delivery_agents, delete_delivery_agent,
    get_delivery_agents, post_parcels, book_parcel, get_parcels, list_parcels,
    patch_parcel, update_parcel, on_modified, follow_up,
    get_assigned_parcels, list_assigned, get_root,
    authorized, authenticated, verifyAdmin, verifyCustomer,
    verifyDeliveryAgent, verifyRole.

(** C4, as the code has it: the server never sets an agent to [busy] and
    keeps no link between the flag and open assignments.  Apart from the
    two routes that store a caller-supplied user body, every request leaves
    each user record as it was or sets its availability to [available]; a
    status update whose body does not ask for [Delivered] or [Failed], an
    assignment included, leaves all user records as they were. *)
Theorem availability_only_released w r s :
  (∀ body, r ≠ PostUsers body) →
  (∀ cr email body, r ≠ PatchUserRole cr email body) →
  only_released s (after (handle w r) s)
  ∧ (∀ cr id body, r = PatchParcel cr id body →
       is_final (body !! "status") = false →
       users (after (handle w r) s) = users s).
Proof.
  intros Hpost Hpatch. split.
  - revert s. change (keeps only_released (handle w r)).
    destruct r; simpl;
      try (exfalso; eapply Hpost; reflexivity);
      try (exfalso; eapply Hpatch; reflexivity);
      unfold_routes; keeps_auto.
  - intros cr id body -> Hfin. revert s.
    change (keeps same_users (patch_parcel w cr id body)).
    unfold patch_parcel. apply authorized_keeps; [apply _ | |].
    + intros e. apply verifyRole_same_users.
    + by apply update_parcel_users_assign.
Qed.

Lemma availability_only_released_witness :
  users (after (handle (calm 4)
                  (PatchParcel (Decoded "agent@x") (Some 3%N) assign)) booked)
    = users booked.
Proof.
  destruct (availability_only_released (calm 4)
              (PatchParcel (Decoded "agent@x") (Some 3%N) assign) booked)
    as [_ H]; [discriminate | discriminate |].
  apply (H (Decoded "agent@x") (Some 3%N) assign); reflexivity.
Defined.

(** ** C5 and C6: booking *)

Section BookingRuns.

Context (w : env).

Lemma getCoordinates_run (a : option value) s :
  getCoordinates w (JS.to_string a +:+ ", Dhaka") s =
    match resolve w a with
    | Found c => (Ok (Some c), s)
    | NotFound => (Ok None, s)
    | LookupFailed => (Throw FetchFailed, s)
    end.
Proof.
  unfold getCoordinates, resolve.
  by destruct (nominatim w _) as [[|[lat lon] ?]|].
Qed.

Lemma found_not_null a c : resolve w a = Found c → c ≠ VNull.
Proof.
  unfold resolve. destruct (nominatim w _) as [[|[lat lon] ?]|]; congruence.
Qed.

Lemma coll_insertOne_run c d s :
  rejects w (InsertOne c) = false →
  coll_insertOne w c d s =
    match Mongo.insertOne (fresh_id w) d (read_coll c s) with
    | None => (Throw (WriteError c), s)
    | Some (i, l) => (Ok i, write_coll c l s)
    end.
Proof. intros H. unfold coll_insertOne, await. by rewrite H. Qed.

(** The runs of the booking handler, by what the two lookups come to. *)
Lemma book_parcel_lookup_failed body s :
  resolve w (body !! "pickupAddress") = LookupFailed
  ∨ (resolve w (body !! "pickupAddress") ≠ LookupFailed
     ∧ resolve w (body !! "deliveryAddress") = LookupFailed) →
  book_parcel w body s = (Ok booking_failed, logged booking_line s).
Proof.
  intros H. unfold book_parcel. erewrite try_throw; [done|].
  destruct H as [H|[H1 H2]].
  - erewrite bind_throw; [done|]. by rewrite getCoordinates_run, H.
  - destruct (resolve w (body !! "pickupAddress")) eqn:Hp; [| |done].
    + erewrite bind_ok by (by rewrite getCoordinates_run, Hp).
      erewrite bind_throw; [done|]. by rewrite getCoordinates_run, H2.
    + erewrite bind_ok by (by rewrite getCoordinates_run, Hp).
      erewrite bind_throw; [done|]. by rewrite getCoordinates_run, H2.
Qed.

Lemma book_parcel_not_found body s :
  resolve w (body !! "pickupAddress") ≠ LookupFailed →
  resolve w (body !! "deliveryAddress") ≠ LookupFailed →
  resolve w (body !! "pickupAddress") = NotFound
  ∨ resolve w (body !! "deliveryAddress") = NotFound →
  book_parcel w body s = (Ok invalid_addresses, s).
Proof.
  intros H1 H2 H. unfold book_parcel. erewrite try_ok; [done|].
  destruct (resolve w (body !! "pickupAddress")) eqn:Hp; [| |done];
    (destruct (resolve w (body !! "deliveryAddress")) eqn:Hd; [| |done]);
    try (destruct H; discriminate);
    erewrite bind_ok by (by rewrite getCoordinates_run, Hp);
    erewrite bind_ok by (by rewrite getCoordinates_run, Hd); done.
Qed.

Lemma book_parcel_found body s pickup delivery i l :
  resolve w (body !! "pickupAddress") = Found pickup →
  resolve w (body !! "deliveryAddress") = Found delivery →
  coll_insertOne w Parcels (new_parcel w body pickup delivery) s
    = (Ok i, write_coll Parcels l s) →
  book_parcel w body s =
    let s1 := add_event (SendMail (Mail (new_parcel w body pickup delivery !! "email")
                "Parcel Booking Confirmation")) (write_coll Parcels l s) in
    if rejects w Transport then (Ok booking_failed, logged booking_line s1)
    else (Ok (Response 200 (Booked i)), s1).
Proof.
  intros Hp Hd Hi. unfold book_parcel. cbv zeta.
  destruct (rejects w Transport) eqn:Hrej.
  - erewrite try_throw; [done|].
    erewrite bind_ok by (by rewrite getCoordinates_run, Hp).
    erewrite bind_ok by (by rewrite getCoordinates_run, Hd).
    cbv beta iota. erewrite bind_ok by exact Hi.
    erewrite bind_throw; [done|]. by rewrite sendMail_run, Hrej.
  - erewrite try_ok; [done|].
    erewrite bind_ok by (by rewrite getCoordinates_run, Hp).
    erewrite bind_ok by (by rewrite getCoordinates_run, Hd).
    cbv beta iota. erewrite bind_ok by exact Hi.
    erewrite bind_ok; [done|]. by rewrite sendMail_run, Hrej.
Qed.

End BookingRuns.

(** C5, counterexample: the pickup address is unknown to the geocoder and
    the lookup of the delivery address rejects.  Nothing is stored and no
    mail is sent, but the booking is answered 500 "Booking failed", not 400
    "Invalid addresses". *)
Lemma unknown_pickup_answered_500 :
  let run := handle (outage 3) (PostParcels (Decoded "cust@x") lost) in
  reachable registered_both
  ∧ resolve (outage 3) (lost !! "pickupAddress") = NotFound
  ∧ answer run registered_both = Ok booking_failed
  ∧ code booking_failed = 500
  ∧ parcels (after run registered_both) = parcels registered_both
  ∧ news registered_both (after run registered_both) = [ConsoleError booking_line].
Proof. split; [apply reachable_examples | vm_compute; done]. Qed.

(** C5, as the code has it: when either address comes back from the
    geocoder with no hit, no parcel is stored and no mail is handed to the
    transport.  When both lookups complete, the answer is 400 "Invalid
    addresses" and the state is exactly as before; when a lookup itself
    fails, the answer is 500 "Booking failed" and only a console line is
    written. *)
Theorem unresolved_address_books_nothing w body s :
  resolve w (body !! "pickupAddress") = NotFound
  ∨ resolve w (body !! "deliveryAddress") = NotFound →
  let s' := after (book_parcel w body) s in
  parcels s' = parcels s
  ∧ (∀ m, SendMail m ∉ news s s')
  ∧ (resolve w (body !! "pickupAddress") ≠ LookupFailed →
     resolve w (body !! "deliveryAddress") ≠ LookupFailed →
     answer (book_parcel w body) s = Ok invalid_addresses ∧ s' = s)
  ∧ (resolve w (body !! "pickupAddress") = LookupFailed
     ∨ resolve w (body !! "deliveryAddress") = LookupFailed →
     answer (book_parcel w body) s = Ok booking_failed
     ∧ s' = logged booking_line s).
Proof.
  intros H s'. unfold s', answer, after, news.
  destruct (decide (resolve w (body !! "pickupAddress") = LookupFailed)) as [Hp|Hp].
  { rewrite book_parcel_lookup_failed by auto. simpl.
    rewrite drop_app_length. split_and!; [done | | done | done].
    intros m Hm%list_elem_of_singleton. discriminate. }
  destruct (decide (resolve w (body !! "deliveryAddress") = LookupFailed)) as [Hd|Hd].
  { rewrite book_parcel_lookup_failed by auto. simpl.
    rewrite drop_app_length. split_and!; [done | | done | done].
    intros m Hm%list_elem_of_singleton. discriminate. }
  rewrite book_parcel_not_found by done. simpl.
  rewrite drop_all. split_and!; [done | | done | by intros [?|?]].
  intros m Hm. by apply not_elem_of_nil in Hm.
Qed.

Lemma unresolved_address_books_nothing_witness :
  (answer (book_parcel (calm 3) nowhere) registered_both = Ok invalid_addresses
   ∧ after (book_parcel (calm 3) nowhere) registered_both = registered_both)
  ∧ (answer (book_parcel (outage 3) lost) registered_both = Ok booking_failed
     ∧ parcels (after (book_parcel (outage 3) lost) registered_both)
         = parcels registered_both).
Proof.
  split.
  - destruct (unresolved_address_books_nothing (calm 3) nowhere registered_both)
      as (_ & _ & H & _).
    + right. vm_compute. reflexivity.
    + apply H; vm_compute; discriminate.
  - destruct (unresolved_address_books_nothing (outage 3) lost registered_both)
      as (Hp & _ & _ & H).
    + left. vm_compute. reflexivity.
    + split; [|exact Hp]. apply H. right. vm_compute. reflexivity.
Defined.

Lemma new_parcel_fields w body pickup delivery :
  let p := new_parcel w body pickup delivery in
  p !! "status" = Some (VStr "Pending")
  ∧ p !! "createdAt" = Some (VDate (clock w))
  ∧ p !! "_id" = Some (VOid (fresh_id w))
  ∧ p !! "pickup" = Some pickup
  ∧ p !! "delivery" = Some delivery
  ∧ (∀ k, k ∉ ["status"; "createdAt"; "_id"; "pickup"; "delivery"] →
       p !! k = body !! k).
Proof.
  unfold new_parcel. split_and!; try by simplify_map_eq.
  intros k Hk. repeat (rewrite lookup_insert_ne; [|set_solver]). done.
Qed.

(** C6, counterexample: a booking whose body carries a [deliveryAgent] is
    stored with that agent reference. *)
Lemma booking_keeps_agent_of_body :
  let run := handle (calm 3) (PostParcels (Decoded "cust@x") booking_with_agent) in
  reachable registered_both
  ∧ answer run registered_both = Ok (Response 200 (Booked (Some (VOid 3))))
  ∧ (parcels (after run registered_both) !! 0) ≫= (.!! "deliveryAgent")
      = Some (VObj {["email" := VStr "agent@x"]})
  ∧ (parcels (after run registered_both) !! 0) ≫= (.!! "status")
      = Some (VStr "Pending").
Proof. split; [apply reachable_examples | vm_compute; done]. Qed.

(** C6, as the code has it: when both addresses resolve and the store takes
    the insert, one record is appended: the request body with [status] set
    to [Pending], [createdAt] to the server clock, [_id] to the identifier
    generated by the server, and [pickup] and [delivery] to the (non-null)
    coordinates, each overriding what the body may carry.  Every other
    field, [deliveryAgent] included, is the body's: the agent reference is
    absent exactly when the body has none.  The confirmation mail is then
    handed to the transport. *)
Theorem booking_stores_pending_parcel w body s pickup delivery :
  resolve w (body !! "pickupAddress") = Found pickup →
  resolve w (body !! "deliveryAddress") = Found delivery →
  rejects w (InsertOne Parcels) = false →
  (∀ d, d ∈ parcels s → d !! "_id" ≠ Some (VOid (fresh_id w))) →
  let p := new_parcel w body pickup delivery in
  let s' := after (book_parcel w body) s in
  parcels s' = parcels s ++ [p]
  ∧ p !! "status" = Some (VStr "Pending")
  ∧ p !! "createdAt" = Some (VDate (clock w))
  ∧ p !! "_id" = Some (VOid (fresh_id w))
  ∧ p !! "pickup" = Some pickup ∧ pickup ≠ VNull
  ∧ p !! "delivery" = Some delivery ∧ delivery ≠ VNull
  ∧ p !! "deliveryAgent" = body !! "deliveryAgent"
  ∧ (∃ rest, trace s' = trace s ++ SendMail (confirmation body) :: rest)
  ∧ (rejects w Transport = false →
       answer (book_parcel w body) s
         = Ok (Response 200 (Booked (Some (VOid (fresh_id w)))))).
Proof.
  intros Hp Hd Hins Hfresh p s'.
  destruct (new_parcel_fields w body pickup delivery)
    as (Hst & Hcr & Hid & Hpk & Hdl & Hrest). fold p in Hst, Hcr, Hid, Hpk, Hdl, Hrest.
  assert (coll_insertOne w Parcels p s
            = (Ok (Some (VOid (fresh_id w))), write_coll Parcels (parcels s ++ [p]) s))
    as Hi.
  { rewrite coll_insertOne_run by done. simpl. unfold Mongo.insertOne.
    assert (Mongo.with_id (fresh_id w) p = p) as -> by (unfold Mongo.with_id; by rewrite Hid).
    cbv zeta. rewrite Hid. rewrite bool_decide_eq_false_2; [done|].
    intros (d & Hin & Heq)%Exists_exists. by apply (Hfresh d). }
  unfold s', answer, after.
  rewrite (book_parcel_found w body s pickup delivery _ _ Hp Hd Hi). fold p.
  assert (p !! "email" = body !! "email") as ->.
  { apply Hrest. compute_done. }
  fold (confirmation body).
  split_and!; try done.
  - by destruct (rejects w Transport).
  - by eapply found_not_null.
  - by eapply found_not_null.
  - apply Hrest. compute_done.
  - destruct (rejects w Transport); simpl; eexists;
      rewrite <- ?app_assoc; simpl; reflexivity.
  - by intros ->.
Qed.

Lemma booking_stores_pending_parcel_witness :
  ∃ pickup delivery,
    parcels (after (book_parcel (calm 3) booking) registered_both)
      = parcels registered_both ++ [new_parcel (calm 3) booking pickup delivery].
Proof.
  eexists _, _.
  apply (booking_stores_pending_parcel (calm 3) booking registered_both).
  - vm_compute. reflexivity.
  - vm_compute. reflexivity.
  - reflexivity.
  - intros d Hd. vm_compute in Hd. by apply not_elem_of_nil in Hd.
Defined.

(** ** C7: the open-assignment query *)

Lemma assigned_query_spec e d :
  assigned_query (Some e) d ↔ undelivered_of e d.
Proof.
  unfold assigned_query, undelivered_of, Mongo.eq_match. simpl.
  rewrite andb_True, bool_decide_spec.
  apply and_iff_compat_l.
  destruct (d !! "status") as [v|]; [|by split].
  rewrite bool_decide_spec, !not_elem_of_cons.
  split.
  - intros (H1 & H2 & _). split; congruence.
  - intros (H1 & H2). split_and!; [congruence | congruence | apply not_elem_of_nil].
Qed.

Lemma find_any (c : list doc) : Mongo.find Mongo.any c = c.
Proof.
  unfold Mongo.find. induction c as [|d c IH]; [done|].
  rewrite filter_cons_True by done. by rewrite IH.
Qed.

Lemma coll_find_run w c p s :
  rejects w (Find c) = false →
  coll_find w c p s = (Ok (Mongo.find p (read_coll c s)), s).
Proof. intros H. unfold coll_find, await. by rewrite H. Qed.

Lemma list_assigned_run w e s :
  rejects w (Find Parcels) = false →
  list_assigned w (Some e) s =
    (Ok (Response 200 (Docs (filter (undelivered_of e) (parcels s)))), s).
Proof.
  intros H. unfold list_assigned.
  erewrite try_ok; [done|].
  erewrite bind_ok by (by apply coll_find_run). simpl. unfold Mongo.find.
  assert (filter (λ d, assigned_query (Some e) d) (parcels s)
          = filter (undelivered_of e) (parcels s)) as ->; [|done].
  apply list_filter_iff. intros d. apply assigned_query_spec.
Qed.

(** C7, counterexample: a cancelled parcel of the agent is returned by the
    query, although [Cancelled] is a terminal state of the specification. *)
Lemma cancelled_parcel_still_listed :
  reachable cancelled
  ∧ ∃ d, parcels cancelled = [d]
         ∧ d !! "deliveryAgent" ≫= JS.prop "email" = Some (VStr "agent@x")
         ∧ Spec.terminal (d !! "status") = true
         ∧ answer (handle (calm 6)
                     (GetAssignedParcels (Decoded "agent@x") (Some "agent@x")))
             cancelled
           = Ok (Response 200 (Docs [d])).
Proof.
  split; [apply reachable_examples|].
  eexists. split_and!; vm_compute; reflexivity.
Qed.

(** C7, as the code has it: the query returns exactly the parcels whose
    [deliveryAgent.email] is the given agent and whose status is neither
    [Delivered] nor [Failed], and changes nothing; a parcel on which an
    update with status [Delivered] or [Failed] has been stored is no longer
    returned. *)
Theorem assigned_lists_undelivered w e s :
  rejects w (Find Parcels) = false →
  list_assigned w (Some e) s =
    (Ok (Response 200 (Docs (filter (undelivered_of e) (parcels s)))), s)
  ∧ (∀ d, d ∈ filter (undelivered_of e) (parcels s) ↔
          d ∈ parcels s
          ∧ d !! "deliveryAgent" ≫= JS.prop "email" = Some (VStr e)
          ∧ d !! "status" ≠ Some (VStr "Delivered")
          ∧ d !! "status" ≠ Some (VStr "Failed"))
  ∧ (∀ w' oid body i d,
       rejects w' (UpdateOne Parcels) = false →
       list_find (λ x, Mongo.by_id oid x) (parcels s) = Some (i, d) →
       Mongo.changes_id body d = false →
       is_final (body !! "status") = true →
       let s' := after (update_parcel w' (Some oid) body) s in
       parcels s' !! i = Some (body ∪ d)
       ∧ ∃ l, answer (list_assigned w (Some e)) s' = Ok (Response 200 (Docs l))
              ∧ body ∪ d ∉ l).
Proof.
  intros Hfind. split_and!.
  - by apply list_assigned_run.
  - intros d. rewrite list_elem_of_filter. unfold undelivered_of. tauto.
  - intros w' oid body i d Hw Hf Hid Hfin s'.
    pose proof (update_parcel_stores_merge w' oid body s i d Hw Hf Hid) as Hp.
    fold s' in Hp.
    split.
    + rewrite Hp. apply list_lookup_insert_eq.
      apply list_find_Some in Hf as (Hi & _). by eapply lookup_lt_Some.
    + eexists. unfold answer. rewrite list_assigned_run by done.
      split; [reflexivity|].
      rewrite list_elem_of_filter. intros [(_ & Hd & Hfl) _].
      unfold is_final, JS.is_string in Hfin.
      apply orb_true_iff in Hfin as [H%bool_decide_eq_true|H%bool_decide_eq_true].
      * apply Hd. by apply union_lookup_set.
      * apply Hfl. by apply union_lookup_set.
Qed.

Lemma assigned_lists_undelivered_witness :
  list_assigned (calm 9) (Some "agent@x") out_for_delivery =
    (Ok (Response 200 (Docs (filter (undelivered_of "agent@x")
                               (parcels out_for_delivery)))), out_for_delivery).
Proof.
  apply (assigned_lists_undelivered (calm 9) "agent@x" out_for_delivery).
  reflexivity.
Defined.

(** ** C8: the creation timestamp *)

Global Instance created_kept_po : PreOrder created_kept.
Proof.
  split.
  - intros s i d Hd. by exists d.
  - intros x y z Hxy Hyz i d Hd.
    destruct (Hxy i d Hd) as (d1 & H1 & E1).
    destruct (Hyz i d1 H1) as (d2 & H2 & E2).
    exists d2. split; [done | congruence].
Qed.

Lemma same_parcels_created_kept s s' : same_parcels s s' → created_kept s s'.
Proof. intros H i d Hd. exists d. by rewrite H. Qed.

Lemma created_kept_event e : ignores_event created_kept e.
Proof. intros s i d Hd. by exists d. Qed.

Lemma created_kept_writes c : c ≠ Parcels → ignores_writes created_kept c.
Proof. intros H s l. apply same_parcels_created_kept. by apply same_parcels_writes. Qed.

Lemma created_kept_insert w d : keeps created_kept (coll_insertOne w Parcels d).
Proof.
  apply keeps_await; [apply _|]. intros s i x Hx. unfold after.
  destruct (Mongo.insertOne _ _ _) as [[r l]|] eqn:Hins; simpl; [|by exists x].
  unfold Mongo.insertOne in Hins. simpl in Hins.
  destruct (bool_decide _); simplify_eq.
  exists x. split; [|done]. by apply lookup_app_l_Some.
Qed.

Lemma created_kept_update w p upd :
  upd !! "createdAt" = None →
  keeps created_kept (coll_updateOne w Parcels p upd).
Proof.
  intros Hupd. apply keeps_await; [apply _|]. intros s i x Hx. unfold after.
  destruct (Mongo.updateOne _ _ _) as [[r l]|] eqn:Hu; simpl; [|by exists x].
  destruct (updateOne_pointwise _ _ _ _ _ i Hu) as [Hi|(d & Hd & _ & Hi)].
  - exists x. by rewrite Hi.
  - simpl in Hd. rewrite Hx in Hd. simplify_eq.
    exists (upd ∪ d). split; [done|]. by apply union_lookup_unset.
Qed.

Global Hint Resolve created_kept_event created_kept_writes created_kept_insert
  created_kept_update : keeps.

(** C8, counterexample: a status update whose body carries [createdAt]
    replaces the creation timestamp of the stored parcel. *)
Lemma created_at_overwritten :
  let run := handle (calm 5) (PatchParcel (Decoded "agent@x") (Some 3%N) redate) in
  reachable assigned
  ∧ (parcels assigned !! 0) ≫= (.!! "createdAt") = Some (VDate 1000)
  ∧ answer run assigned = Ok (Response 200 (Updated (Mongo.UpdateResult 1 1)))
  ∧ (parcels (after run assigned) !! 0) ≫= (.!! "createdAt")
      = Some (VStr "2030-01-01T00:00:00.000Z").
Proof. split; [apply reachable_examples | vm_compute; done]. Qed.

Lemma not_addressed_unset field (body : doc) :
  (∀ k, is_Some (body !! k) → Mongo.addresses field k = false) →
  body !! field = None.
Proof.
  intros H. destruct (body !! field) as [v|] eqn:Hv; [|done].
  specialize (H field). rewrite Hv in H. specialize (H (mk_is_Some _ _ eq_refl)).
  unfold Mongo.addresses in H. by rewrite String.eqb_refl in H.
Qed.

(** C8, as the code has it: booking sets [createdAt] to the server clock,
    whatever the body carries, and every later request leaves the
    [createdAt] of every stored parcel as it is, except a status update
    whose body addresses [createdAt]: by a field of that name or by a dotted
    path into it. *)
Theorem created_at_kept w r s :
  (∀ cr id body, r = PatchParcel cr id body →
     ∀ k, is_Some (body !! k) → Mongo.addresses "createdAt" k = false) →
  (∀ body pickup delivery,
     new_parcel w body pickup delivery !! "createdAt" = Some (VDate (clock w)))
  ∧ (∀ i d, parcels s !! i = Some d →
       ∃ d', parcels (after (handle w r) s) !! i = Some d'
             ∧ d' !! "createdAt" = d !! "createdAt").
Proof.
  intros Hbody. split.
  - intros body pickup delivery. apply new_parcel_fields.
  - revert s. change (keeps created_kept (handle w r)).
    destruct r; simpl;
      try (specialize (Hbody _ _ _ eq_refl); apply not_addressed_unset in Hbody);
      unfold_routes; keeps_auto.
Qed.

Lemma created_at_kept_witness :
  ∃ d', parcels (after (handle (calm 9)
                   (PatchParcel (Decoded "agent@x") (Some 1%N) deliver))
                   out_for_delivery) !! 0 = Some d'
        ∧ d' !! "createdAt" = assigned_parcel !! "createdAt".
Proof.
  destruct (created_at_kept (calm 9)
              (PatchParcel (Decoded "agent@x") (Some 1%N) deliver) out_for_delivery)
    as [_ H].
  - intros cr id body [= _ _ <-] k [v Hk]. unfold deliver in Hk.
    apply lookup_singleton_Some in Hk as [<- _]. reflexivity.
  - apply H. reflexivity.
Defined.

(** ** C9: releasing an agent twice *)

Lemma updateOne_twice (p : doc → bool) upd (c : list doc) r l :
  (∀ d, p (upd ∪ d) = p d) →
  Mongo.updateOne p upd c = Some (r, l) →
  Mongo.updateOne p upd l = Some (Mongo.UpdateResult (Mongo.matchedCount r) 0, l).
Proof.
  intros Hp. unfold Mongo.updateOne.
  destruct (list_find _ c) as [[i d]|] eqn:Hf.
  - destruct (Mongo.changes_id upd d) eqn:Hid; [done|]. intros [= <- <-].
    assert (list_find (λ x, p x) (<[i := upd ∪ d]> c) = Some (i, upd ∪ d)) as ->.
    { apply list_find_Some in Hf as (Hi & Hd & Hmin).
      apply list_find_Some. split_and!.
      - apply list_lookup_insert_eq. by eapply lookup_lt_Some.
      - by rewrite Hp.
      - intros j y Hj Hlt. rewrite list_lookup_insert_ne in Hj by lia.
        by eapply Hmin. }
    assert (upd ∪ (upd ∪ d) = upd ∪ d) as Hidem.
    { by rewrite (assoc_L (∪)), (idemp_L (∪)). }
    assert (Mongo.changes_id upd (upd ∪ d) = false) as ->.
    { unfold Mongo.changes_id. destruct (upd !! "_id") as [v|] eqn:Hv; [|done].
      apply bool_decide_eq_false. intros H. apply H. by apply union_lookup_set. }
    rewrite Hidem. rewrite decide_True by done.
    by rewrite list_insert_insert_eq.
  - intros [= <- <-]. by rewrite Hf.
Qed.

Lemma by_email_after_release e d :
  Mongo.by_email e ({["availability" := VStr "available"]} ∪ d) = Mongo.by_email e d.
Proof.
  unfold Mongo.by_email. by rewrite union_lookup_unset.
Qed.

(** C9: releasing the same agent twice in a row leaves the server in the
    state one release leaves it in; the second write matches the same user
    and modifies nothing. *)
Theorem release_agent_idempotent w e s :
  after (release_agent w e;; release_agent w e) s = after (release_agent w e) s
  ∧ (∀ r s1, release_agent w e s = (Ok r, s1) →
       release_agent w e s1
         = (Ok (Mongo.UpdateResult (Mongo.matchedCount r) 0), s1)).
Proof.
  assert (∀ r s1, release_agent w e s = (Ok r, s1) →
            release_agent w e s1
              = (Ok (Mongo.UpdateResult (Mongo.matchedCount r) 0), s1)) as Hsecond.
  { intros r s1. unfold release_agent, coll_updateOne, await.
    destruct (rejects w (UpdateOne Users)); [done|]. simpl.
    destruct (Mongo.updateOne _ _ (users s)) as [[r0 l]|] eqn:Hu; [|done].
    intros [= <- <-]. simpl.
    rewrite (updateOne_twice _ _ _ _ _ (by_email_after_release e) Hu).
    reflexivity. }
  split; [|done].
  unfold after.
  destruct (release_agent w e s) as [[r|err] s1] eqn:Hfirst.
  - erewrite bind_ok by exact Hfirst. by rewrite (Hsecond r s1).
  - by erewrite bind_throw by exact Hfirst.
Qed.

(** ** C10: listing parcels *)

Lemma list_parcels_all w s :
  rejects w (Find Parcels) = false →
  list_parcels w None s = (Ok (Response 200 (Docs (parcels s))), s)
  ∧ list_parcels w (Some "") s = (Ok (Response 200 (Docs (parcels s))), s).
Proof.
  intros H. unfold list_parcels. simpl.
  split; (erewrite bind_ok by (by apply coll_find_run)); simpl;
    by rewrite find_any.
Qed.

Lemma list_parcels_owner w e s :
  rejects w (Find Parcels) = false →
  e ≠ "" →
  list_parcels w (Some e) s =
    (Ok (Response 200 (Docs (filter (owned_by e) (parcels s)))), s).
Proof.
  intros H He. unfold list_parcels. simpl.
  assert (String.eqb e "" = false) as -> by (by apply String.eqb_neq).
  simpl. erewrite bind_ok by (by apply coll_find_run). simpl. unfold Mongo.find.
  assert (filter (λ d, Mongo.by_email (Some (VStr e)) d) (parcels s)
          = filter (owned_by e) (parcels s)) as ->; [|done].
  apply list_filter_iff. intros d. unfold Mongo.by_email, Mongo.eq_match, owned_by.
  by rewrite bool_decide_spec.
Qed.

(** C10: for an authenticated caller, whoever it is, [GET /parcels] without
    an [email] parameter (or with an empty one) answers with every stored
    parcel; the list is restricted to one owner's parcels only when a
    non-empty [email] is given. *)
Theorem get_parcels_unfiltered w who s :
  rejects w (Find Parcels) = false →
  get_parcels w (Decoded who) None s = (Ok (Response 200 (Docs (parcels s))), s)
  ∧ get_parcels w (Decoded who) (Some "") s
      = (Ok (Response 200 (Docs (parcels s))), s)
  ∧ (∀ e, e ≠ "" →
       get_parcels w (Decoded who) (Some e) s
         = (Ok (Response 200 (Docs (filter (owned_by e) (parcels s)))), s)).
Proof.
  intros H. unfold get_parcels, authenticated. simpl.
  destruct (list_parcels_all w s H) as [Hnone Hempty].
  split_and!; [done | done |].
  intros e He. by apply list_parcels_owner.
Qed.

Lemma get_parcels_unfiltered_witness :
  get_parcels (calm 9) (Decoded "agent@x") None out_for_delivery
    = (Ok (Response 200 (Docs (parcels out_for_delivery))), out_for_delivery).
Proof.
  apply (get_parcels_unfiltered (calm 9) "agent@x" out_for_delivery). reflexivity.
Defined.

(** * Further properties of the routes *)

(** ** Authentication and roles *)

(** X1: Every route behind [verifyFirebaseToken] answers a request without a
    verified token with 401 (no header, no token) or 403 (token refused),
    and leaves the state as it is. *)
Theorem unauthenticated_refused w r s cr :
  credentials_of r = Some cr →
  (∀ e, cr ≠ Decoded e) →
  handle w r s =
    (Ok (match cr with
         | BadToken => Response 403 (Message "Forbidden Access")
         | _ => Response 401 (Message "Unauthorized Access")
         end), s).
Proof.
  intros Hcr Hno.
  destruct r; simplify_eq/=;
    (destruct cr as [| | |e]; [done | done | done | by destruct (Hno e)]).
Qed.

Lemma unauthenticated_refused_witness :
  handle (calm 9) (PatchParcel NoToken (Some 1%N) deliver) out_for_delivery =
    (Ok (Response 401 (Message "Unauthorized Access")), out_for_delivery).
Proof.
  apply (unauthenticated_refused (calm 9) (PatchParcel NoToken (Some 1%N) deliver)
           out_for_delivery NoToken); [reflexivity | discriminate].
Defined.

Lemma verifyRole_run w role denial e s :
  rejects w (FindOne Users) = false →
  verifyRole w role denial e s =
    (Ok (match Mongo.findOne (Mongo.by_email (Some (VStr e))) (users s) with
         | Some u =>
             if JS.is_string role (u !! "role") then None
             else Some (Response 403 (Message denial))
         | None => Some (Response 403 (Message denial))
         end), s).
Proof.
  intros H. unfold verifyRole.
  erewrite bind_ok by (by apply coll_findOne_run). simpl.
  destruct (Mongo.findOne _ _) as [u|]; [|done].
  by destruct (JS.is_string role (u !! "role")).
Qed.

Lemma verifyRole_pass w role denial e s :
  rejects w (FindOne Users) = false →
  has_role s e role →
  verifyRole w role denial e s = (Ok None, s).
Proof.
  intros H (u & Hu & Hr). rewrite verifyRole_run by done. rewrite Hu.
  unfold JS.is_string. by rewrite bool_decide_eq_true_2.
Qed.

Lemma verifyRole_deny w role denial e s :
  rejects w (FindOne Users) = false →
  ¬ has_role s e role →
  verifyRole w role denial e s = (Ok (Some (Response 403 (Message denial))), s).
Proof.
  intros H Hno. rewrite verifyRole_run by done.
  destruct (Mongo.findOne _ _) as [u|] eqn:Hu; [|done].
  unfold JS.is_string. rewrite bool_decide_eq_false_2; [done|].
  intros Hr. apply Hno. by exists u.
Qed.

Lemma authorized_pass cr e (check : string → M (option response)) h s :
  cr = Decoded e → check e s = (Ok None, s) → authorized cr check h s = h s.
Proof.
  intros -> Hc. unfold authorized, authenticated. simpl.
  by erewrite bind_ok by exact Hc.
Qed.

Lemma authorized_deny cr e (check : string → M (option response)) h s r :
  cr = Decoded e → check e s = (Ok (Some r), s) →
  authorized cr check h s = (Ok r, s).
Proof.
  intros -> Hc. unfold authorized, authenticated. simpl.
  by erewrite bind_ok by exact Hc.
Qed.

(** X2: A verified caller whose user record is missing or carries another role
    than the one the route asks for is answered 403 with the route's
    message, and nothing changes: no parcel is booked or updated, no user
    edited, no application deleted. *)
Theorem wrong_role_refused w r s e role denial :
  credentials_of r = Some (Decoded e) →
  required_role r = Some (role, denial) →
  rejects w (FindOne Users) = false →
  ¬ has_role s e role →
  handle w r s = (Ok (Response 403 (Message denial)), s).
Proof.
  intros Hcr Hrole Hfind Hno.
  destruct r; simplify_eq/=;
    unfold patch_user_role, get_users, delete_delivery_agent,
      get_delivery_agents, post_parcels, patch_parcel, get_assigned_parcels,
      verifyAdmin, verifyCustomer, verifyDeliveryAgent;
    by apply (authorized_deny _ e), verifyRole_deny.
Qed.

Lemma wrong_role_refused_witness :
  handle (calm 9) (PatchParcel (Decoded "cust@x") (Some 1%N) deliver)
    out_for_delivery =
    (Ok (Response 403 (Message "Only members can access this route")),
     out_for_delivery).
Proof.
  apply (wrong_role_refused (calm 9)
           (PatchParcel (Decoded "cust@x") (Some 1%N) deliver)
           out_for_delivery "cust@x" "deliveryAgent");
    [reflexivity | reflexivity | reflexivity |].
  intros (u & Hu & Hr). vm_compute in Hu.
  injection Hu as <-. vm_compute in Hr. discriminate.
Defined.

(** ** Reading routes *)

Global Instance same_stores_po : PreOrder same_stores.
Proof.
  split.
  - by intros s.
  - intros x y z (H1 & H2 & H3) (H4 & H5 & H6). unfold same_stores.
    split_and!; congruence.
Qed.

Lemma same_stores_event e : ignores_event same_stores e.
Proof. by intros s. Qed.

Global Hint Resolve same_stores_event : keeps.

(** X3: No [GET] route writes to a collection, whoever calls it and whatever the
    store and the token check do. *)
Theorem get_routes_read_only w r s :
  is_get r = true →
  parcels (after (handle w r) s) = parcels s
  ∧ users (after (handle w r) s) = users s
  ∧ deliveryAgents (after (handle w r) s) = deliveryAgents s.
Proof.
  intros Hget. revert s. change (keeps same_stores (handle w r)).
  destruct r; try discriminate; simpl; unfold_routes; keeps_auto.
Qed.

Lemma get_routes_read_only_witness :
  parcels (after (handle (failing (Find Parcels))
                    (GetAssignedParcels (Decoded "agent@x") (Some "agent@x")))
             out_for_delivery) = parcels out_for_delivery.
Proof.
  apply (get_routes_read_only (failing (Find Parcels))
           (GetAssignedParcels (Decoded "agent@x") (Some "agent@x"))
           out_for_delivery).
  reflexivity.
Defined.

(** X4: [GET /users/:email/role] always answers and never changes the state, not
    even its console; a caller asking for another e-mail than the token's
    (ASCII e-mails, compared without case) is answered 403 whatever the store
    holds. *)
Theorem get_user_role_self_only w cr email s :
  (∃ resp, get_user_role w cr email s = (Ok resp, s)
           ∧ code resp ∈ [200; 401; 403; 404; 500])
  ∧ (∀ decoded, cr = Decoded decoded →
       ascii_only email = true → ascii_only decoded = true →
       toLowerCase email ≠ toLowerCase decoded →
       get_user_role w cr email s
         = (Ok (Response 403 (Message "Unauthorized access")), s)).
Proof.
  split.
  - unfold get_user_role, authenticated.
    destruct cr as [| | |decoded]; simpl;
      try (eexists; split; [reflexivity | simpl; compute_done]).
    unfold try_catch, coll_findOne, await.
    destruct (_ || _); [eexists; split; [reflexivity | simpl; compute_done]|].
    destruct (rejects w (FindOne Users));
      [eexists; split; [reflexivity | simpl; compute_done]|].
    unfold mbind, M_bind, get.
    destruct (Mongo.findOne (Mongo.by_email (Some (VStr email)))
                (read_coll Users s));
      eexists; (split; [reflexivity | simpl; compute_done]).
  - intros decoded -> _ _ Hne. unfold get_user_role, authenticated. simpl.
    unfold try_catch.
    rewrite (bool_decide_eq_true_2 (toLowerCase email ≠ toLowerCase decoded)) by done.
    by rewrite orb_true_r.
Qed.

Lemma get_user_role_self_only_witness :
  get_user_role (calm 9) (Decoded "Agent@x") "cust@x" out_for_delivery
    = (Ok (Response 403 (Message "Unauthorized access")), out_for_delivery).
Proof.
  destruct (get_user_role_self_only (calm 9) (Decoded "Agent@x") "cust@x"
              out_for_delivery) as [_ H].
  apply (H "Agent@x"); [reflexivity | reflexivity | reflexivity |].
  vm_compute. discriminate.
Defined.

(** ** Registration, applications and roles *)

Section InsertFacts.

Implicit Types (c : list doc) (d : doc).

Lemma eq_match_refl q : Mongo.eq_match q q = true.
Proof.
  destruct q as [[]|]; simpl; try done; by apply bool_decide_eq_true_2.
Qed.

Lemma with_id_lookup fresh d k :
  k ≠ "_id" → Mongo.with_id fresh d !! k = d !! k.
Proof.
  intros Hk. unfold Mongo.with_id.
  destruct (d !! "_id") as [[]|]; try done; by rewrite lookup_insert_ne.
Qed.

Lemma with_id_has_id fresh d : is_Some (Mongo.with_id fresh d !! "_id").
Proof.
  unfold Mongo.with_id.
  destruct (d !! "_id") as [[]|] eqn:H; rewrite ?lookup_insert_eq, ?H; done.
Qed.

Lemma findOne_none_iff (p : doc → bool) c :
  Mongo.findOne p c = None ↔ ∀ d, d ∈ c → p d = false.
Proof.
  unfold Mongo.findOne. rewrite fmap_None, list_find_None, Forall_forall.
  split; intros H d Hd; specialize (H d Hd).
  - destruct (p d); [by destruct H | done].
  - rewrite H. by intros [].
Qed.

(** A document appended to a collection in which nothing matched is the one
    found afterwards. *)
Lemma findOne_appended (p : doc → bool) c d :
  Mongo.findOne p c = None → p d = true → Mongo.findOne p (c ++ [d]) = Some d.
Proof.
  intros Hnone Hd. unfold Mongo.findOne.
  assert (list_find (λ x, p x) (c ++ [d]) = Some (length c, d)) as ->; [|done].
  apply list_find_Some. split_and!.
  - by rewrite lookup_app_r, Nat.sub_diag.
  - by rewrite Hd.
  - intros j y Hj Hlt. rewrite lookup_app_l in Hj by done.
    rewrite (proj1 (findOne_none_iff p c) Hnone y); [by intros []|].
    by eapply list_elem_of_lookup_2.
Qed.

Lemma insertOne_fresh fresh d c :
  (∀ x, x ∈ c → x !! "_id" ≠ Mongo.with_id fresh d !! "_id") →
  Mongo.insertOne fresh d c =
    Some (Mongo.with_id fresh d !! "_id", c ++ [Mongo.with_id fresh d]).
Proof.
  intros H. unfold Mongo.insertOne. cbv zeta.
  rewrite bool_decide_eq_false_2; [done|].
  intros (x & Hx & Heq)%Exists_exists. by apply (H x).
Qed.

Lemma insertOne_duplicate fresh d c x :
  x ∈ c → x !! "_id" = Mongo.with_id fresh d !! "_id" →
  Mongo.insertOne fresh d c = None.
Proof.
  intros Hx Heq. unfold Mongo.insertOne. cbv zeta.
  rewrite bool_decide_eq_true_2; [done|]. apply Exists_exists. eauto.
Qed.

End InsertFacts.

Lemma post_users_conflict w user s u :
  rejects w (FindOne Users) = false →
  Mongo.findOne (Mongo.by_email (user !! "email")) (users s) = Some u →
  post_users w user s = (Ok (Response 409 (Message "User already exists")), s).
Proof.
  intros Hf Hu. unfold post_users.
  erewrite bind_ok by (by apply coll_findOne_run). simpl. by rewrite Hu.
Qed.



(** X6: [POST /users] with a body of plain field names and an e-mail no stored
    user has appends the body, given the generated [_id] unless it brings
    its own, and from then on the user is the one found under that e-mail: a
    second registration with the same e-mail is answered 409 and changes
    nothing more. *)
Theorem post_users_registers_once w w' user s :
  Mongo.plain user = true →
  rejects w (FindOne Users) = false →
  rejects w (InsertOne Users) = false →
  rejects w' (FindOne Users) = false →
  Mongo.findOne (Mongo.by_email (user !! "email")) (users s) = None →
  (∀ x, x ∈ users s → x !! "_id" ≠ Mongo.with_id (fresh_id w) user !! "_id") →
  let stored := Mongo.with_id (fresh_id w) user in
  let s' := write_coll Users (users s ++ [stored]) s in
  post_users w user s = (Ok (Response 200 (Inserted (stored !! "_id"))), s')
  ∧ Mongo.findOne (Mongo.by_email (user !! "email")) (users s') = Some stored
  ∧ post_users w' user s'
      = (Ok (Response 409 (Message "User already exists")), s').
Proof.
  intros _ Hf Hi Hf' Hnone Hfresh stored s'.
  assert (Mongo.findOne (Mongo.by_email (user !! "email")) (users s') = Some stored)
    as Hfound.
  { simpl. apply findOne_appended; [done|]. unfold Mongo.by_email, stored.
    rewrite with_id_lookup by done. apply eq_match_refl. }
  split_and!; [|done|by eapply post_users_conflict].
  unfold post_users.
  erewrite bind_ok by (by apply coll_findOne_run). simpl. rewrite Hnone.
  erewrite bind_ok; [done|].
  rewrite coll_insertOne_run by done. simpl.
  by rewrite insertOne_fresh.
Qed.

Lemma post_users_registers_once_witness :
  post_users (calm 8) applicant out_for_delivery =
    (Ok (Response 200 (Inserted (Some (VOid 8)))),
     write_coll Users (users out_for_delivery
                       ++ [Mongo.with_id 8 applicant]) out_for_delivery).
Proof.
  apply (post_users_registers_once (calm 8) (calm 9) applicant out_for_delivery);
    try reflexivity.
  intros x Hx. vm_compute in Hx.
  apply list_elem_of_In in Hx.
  destruct Hx as [<-|[<-|[]]]; vm_compute; discriminate.
Defined.

(** X7: [POST /deliveryAgents] with a body of plain field names: the first
    application under an e-mail is stored with the server's clock as
    [appliedAt] and answered 201; a further application carrying the same
    e-mail, from whichever verified caller, is answered 400 and stores
    nothing.  The e-mail is the body's, not the token's. *)
Theorem application_once w w' e e' agentData s :
  Mongo.plain agentData = true →
  rejects w (FindOne DeliveryAgents) = false →
  rejects w (InsertOne DeliveryAgents) = false →
  rejects w' (FindOne DeliveryAgents) = false →
  Mongo.findOne (Mongo.by_email (agentData !! "email")) (deliveryAgents s) = None →
  let stored :=
    Mongo.with_id (fresh_id w) (<["appliedAt" := VDate (clock w)]> agentData) in
  (∀ x, x ∈ deliveryAgents s → x !! "_id" ≠ stored !! "_id") →
  let s' := write_coll DeliveryAgents (deliveryAgents s ++ [stored]) s in
  post_delivery_agents w (Decoded e) agentData s
    = (Ok (Response 201 (Applied (stored !! "_id"))), s')
  ∧ stored !! "appliedAt" = Some (VDate (clock w))
  ∧ post_delivery_agents w' (Decoded e') agentData s'
      = (Ok (Response 400 (Message "You have already applied.")), s').
Proof.
  intros _ Hf Hi Hf' Hnone stored Hfresh s'.
  assert (stored !! "email" = agentData !! "email") as Hemail.
  { unfold stored. rewrite with_id_lookup by done. by rewrite lookup_insert_ne. }
  split_and!.
  - unfold post_delivery_agents, authenticated. simpl.
    erewrite try_ok; [done|].
    erewrite bind_ok by (by apply coll_findOne_run). simpl. rewrite Hnone.
    erewrite bind_ok; [done|].
    rewrite coll_insertOne_run by done. simpl.
    by rewrite insertOne_fresh.
  - unfold stored. rewrite with_id_lookup by done. by rewrite lookup_insert_eq.
  - unfold post_delivery_agents, authenticated. simpl.
    erewrite try_ok; [done|].
    erewrite bind_ok by (by apply coll_findOne_run). simpl.
    rewrite findOne_appended; [done | done |].
    unfold Mongo.by_email. rewrite Hemail. apply eq_match_refl.
Qed.

Lemma application_once_witness :
  post_delivery_agents (calm 8) (Decoded "cust@x") agent_a out_for_delivery
    = (Ok (Response 201 (Applied (Some (VOid 8)))),
       write_coll DeliveryAgents
         [Mongo.with_id 8 (<["appliedAt" := VDate 1000]> agent_a)]
         out_for_delivery).
Proof.
  apply (application_once (calm 8) (calm 9) "cust@x" "agent@x" agent_a
           out_for_delivery); try reflexivity.
  intros x Hx. vm_compute in Hx. by apply not_elem_of_nil in Hx.
Defined.

Section DeleteFacts.

Implicit Types (c : list doc) (d : doc).

Lemma ids_distinct_delete c i : ids_distinct c → ids_distinct (delete i c).
Proof.
  unfold ids_distinct. intros H. rewrite list_fmap_delete.
  eapply sublist_NoDup; [exact H | apply sublist_delete].
Qed.

(** With distinct ids, deleting the first document with an id leaves none
    with that id, and leaves every other document. *)
Lemma delete_found_distinct oid c i d :
  ids_distinct c →
  list_find (λ x, Mongo.by_id oid x) c = Some (i, d) →
  Mongo.findOne (Mongo.by_id oid) (delete i c) = None
  ∧ (∀ x, x ∈ c → x ≠ d → x ∈ delete i c).
Proof.
  intros Hnd (Hi & Hd & _)%list_find_Some.
  apply Is_true_true, bool_decide_eq_true in Hd.
  pose proof (take_drop_middle c i d Hi) as Hc.
  rewrite delete_take_drop.
  unfold ids_distinct in Hnd. rewrite <- Hc, fmap_app, fmap_cons in Hnd.
  apply NoDup_app in Hnd as (_ & Hleft & Hright%NoDup_cons).
  destruct Hright as [Hright _].
  split.
  - apply findOne_none_iff. intros x Hx.
    apply bool_decide_eq_false. intros Hxid.
    apply elem_of_app in Hx as [Hx|Hx].
    + apply (Hleft (x !! "_id"));
        [by apply (list_elem_of_fmap_2 (λ y : doc, y !! "_id"))|].
      rewrite Hxid, <- Hd. apply list_elem_of_here.
    + apply Hright. rewrite Hd, <- Hxid.
      by apply (list_elem_of_fmap_2 (λ y : doc, y !! "_id")).
  - intros x Hx Hne. rewrite <- Hc in Hx.
    apply elem_of_app in Hx as [Hx|Hx]; [apply elem_of_app; by left|].
    apply elem_of_cons in Hx as [->|Hx]; [done|]. apply elem_of_app. by right.
Qed.

End DeleteFacts.

(** X8: [DELETE /deliveryAgents/:id] by an admin, in a store whose applications
    have distinct ids: the application with the id is removed and answered
    with [deletedCount] 1, every other application stays, and none with the
    id is left, so that deleting again is answered with [deletedCount] 0 and
    changes nothing. *)
Theorem delete_removes_application w w' admin oid s i d :
  has_role s admin "admin" →
  rejects w (FindOne Users) = false →
  rejects w (DeleteOne DeliveryAgents) = false →
  rejects w' (FindOne Users) = false →
  rejects w' (DeleteOne DeliveryAgents) = false →
  ids_distinct (deliveryAgents s) →
  list_find (λ x, Mongo.by_id oid x) (deliveryAgents s) = Some (i, d) →
  let s' := write_coll DeliveryAgents (delete i (deliveryAgents s)) s in
  delete_delivery_agent w (Decoded admin) (Some oid) s
    = (Ok (Response 200 (Deleted 1)), s')
  ∧ (∀ x, x ∈ deliveryAgents s → x ≠ d → x ∈ deliveryAgents s')
  ∧ Mongo.findOne (Mongo.by_id oid) (deliveryAgents s') = None
  ∧ delete_delivery_agent w' (Decoded admin) (Some oid) s'
      = (Ok (Response 200 (Deleted 0)), s').
Proof.
  intros Hadmin Hf Hd Hf' Hd' Hnd Hfind s'.
  destruct (delete_found_distinct oid _ i d Hnd Hfind) as [Hgone Hkept].
  assert (∀ w0 s0 r l,
    rejects w0 (FindOne Users) = false →
    rejects w0 (DeleteOne DeliveryAgents) = false →
    has_role s0 admin "admin" →
    Mongo.deleteOne (Mongo.by_id oid) (deliveryAgents s0) = (r, l) →
    delete_delivery_agent w0 (Decoded admin) (Some oid) s0
      = (Ok (Response 200 (Deleted r)), write_coll DeliveryAgents l s0)) as Hrun.
  { intros w0 s0 r l H1 H2 H3 H4. unfold delete_delivery_agent, verifyAdmin.
    rewrite (authorized_pass _ admin) by (done || by apply verifyRole_pass).
    erewrite bind_ok by reflexivity.
    erewrite bind_ok; [done|].
    unfold coll_deleteOne, await. rewrite H2. simpl. by rewrite H4. }
  split_and!; [| done | done |].
  - apply Hrun; [done..|]. unfold Mongo.deleteOne. by rewrite Hfind.
  - assert (s' = write_coll DeliveryAgents (deliveryAgents s') s') as Hs'
      by (by destruct s).
    rewrite Hs' at 2. apply Hrun; [done | done | by destruct s |].
    unfold Mongo.deleteOne. unfold Mongo.findOne in Hgone.
    apply fmap_None in Hgone. simpl. by rewrite Hgone.
Qed.

Lemma delete_removes_application_witness :
  delete_delivery_agent (calm 9) (Decoded "admin@x") (Some 7%N) office
    = (Ok (Response 200 (Deleted 1)), write_coll DeliveryAgents [] office).
Proof.
  apply (delete_removes_application (calm 9) (calm 9) "admin@x" 7%N office 0
           (<["_id" := VOid 7]> applicant)); try reflexivity.
  - eexists. split; vm_compute; reflexivity.
  - unfold ids_distinct. simpl. apply NoDup_singleton.
Defined.



(** ** More on the status update *)

Lemma update_parcel_unmatched_run w oid body s :
  rejects w (UpdateOne Parcels) = false →
  list_find (λ x, Mongo.by_id oid x) (parcels s) = None →
  update_parcel w (Some oid) body s =
    (Ok (Response 200 (Updated (Mongo.UpdateResult 0 0))), s).
Proof.
  intros Hw Hnone.
  pose proof (coll_updateOne_run w Parcels (Mongo.by_id oid) body s Hw) as Hu.
  simpl in Hu. rewrite (updateOne_unmatched _ _ _ Hnone) in Hu.
  rewrite (update_parcel_run _ _ _ _ _ _ Hu).
  rewrite on_modified_unmodified by done. by destruct s.
Qed.

Lemma update_parcel_same_run w oid body s i d :
  rejects w (UpdateOne Parcels) = false →
  list_find (λ x, Mongo.by_id oid x) (parcels s) = Some (i, d) →
  Mongo.changes_id body d = false →
  body ∪ d = d →
  update_parcel w (Some oid) body s =
    (Ok (Response 200 (Updated (Mongo.UpdateResult 1 0))), s).
Proof.
  intros Hw Hf Hid Hsame.
  pose proof (coll_updateOne_run w Parcels (Mongo.by_id oid) body s Hw) as Hu.
  simpl in Hu. rewrite (updateOne_matched _ _ _ _ _ Hf Hid) in Hu.
  rewrite decide_True in Hu by done.
  rewrite (update_parcel_run _ _ _ _ _ _ Hu).
  rewrite on_modified_unmodified by done.
  rewrite Hsame, list_insert_id; [by destruct s|].
  by apply list_find_Some in Hf as (Hi & _).
Qed.



(** X11: A committed update with plain field names and status [Delivered] or
    [Failed] on a parcel whose committed record names no agent (no
    [deliveryAgent], or one without a truthy [email]) edits no user record;
    the broadcast and the status mail go out all the same. *)
Theorem final_update_without_agent w oid body s i d :
  Mongo.plain body = true →
  rejects w (UpdateOne Parcels) = false →
  rejects w (FindOne Parcels) = false →
  list_find (λ x, Mongo.by_id oid x) (parcels s) = Some (i, d) →
  Mongo.changes_id body d = false →
  body ∪ d ≠ d →
  is_final (body !! "status") = true →
  JS.truthy (agent_email (Some (body ∪ d))) = false →
  let s' := after (update_parcel w (Some oid) body) s in
  users s' = users s
  ∧ ∃ rest, trace s' = trace s ++ Emit "status-updated"
              :: SendMail (status_mail (body ∪ d) body) :: rest.
Proof.
  intros _ Hw Hfo Hf Hid Hne Hfin Hag s'.
  pose proof (coll_updateOne_run w Parcels (Mongo.by_id oid) body s Hw) as Hu.
  simpl in Hu. rewrite (updateOne_matched _ _ _ _ _ Hf Hid) in Hu.
  rewrite decide_False in Hu by done.
  set (s1 := State (<[i:=body ∪ d]> (parcels s)) (users s) (deliveryAgents s) (trace s)) in *.
  set (s2 := add_event (Emit "status-updated") s1).
  assert (Mongo.findOne (Mongo.by_id oid) (parcels s2) = Some (body ∪ d)) as Hp.
  { apply (findOne_after_update _ _ _ d); [done|].
    apply by_id_after_set; [|done].
    apply list_find_Some in Hf as (_ & Hd & _). by apply Is_true_true. }
  unfold s', after. rewrite (update_parcel_run _ _ _ _ _ _ Hu).
  rewrite on_modified_final by (done || simpl; lia). fold s2.
  rewrite (follow_up_without_agent w oid body s2 _ Hfo Hp Hag).
  destruct (rejects w Transport); simpl; (split; [done|]);
    eexists; rewrite <- !app_assoc; simpl; reflexivity.
Qed.

Lemma final_update_without_agent_witness :
  users (after (update_parcel (calm 9) (Some 2%N) deliver) office) = users office.
Proof.
  apply (final_update_without_agent (calm 9) 2%N deliver office 1
           unassigned_parcel); try reflexivity.
  intros H. apply (f_equal (lookup "status")) in H. vm_compute in H. discriminate.
Defined.


Global Instance trace_extends_po : PreOrder trace_extends.
Proof.
  split.
  - intros s. exists []. by rewrite app_nil_r.
  - intros x y z (l1 & H1) (l2 & H2). exists (l1 ++ l2).
    by rewrite H2, H1, app_assoc.
Qed.

Lemma trace_extends_event e : ignores_event trace_extends e.
Proof. intros s. by exists [e]. Qed.

Lemma trace_extends_writes c : ignores_writes trace_extends c.
Proof. intros s l. exists []. destruct c; simpl; by rewrite app_nil_r. Qed.

Global Hint Resolve trace_extends_event trace_extends_writes : keeps.

Lemma follow_up_trace_extends w oid body :
  keeps trace_extends (follow_up w oid body).
Proof. unfold follow_up, release_agent. keeps_auto. Qed.

(** X13: Connected viewers are told exactly when a parcel changed: the status
    update puts ["status-updated"] on the socket if and only if it leaves
    the parcels collection different from what it was. *)
Theorem broadcast_iff_changed w id body s :
  let s' := after (update_parcel w id body) s in
  Emit "status-updated" ∈ news s s' ↔ parcels s' ≠ parcels s.
Proof.
  intros s'. unfold s', after, news.
  assert (∀ s0, trace (logged catch_line s0) = trace s0 ++ [ConsoleError catch_line])
    as Hlog by done.
  assert (∀ l, l = [] ∨ l = [ConsoleError catch_line] →
            Emit "status-updated" ∈ l ↔ parcels s ≠ parcels s) as Hquiet.
  { intros l [-> | ->]; split; try done.
    - by intros ?%not_elem_of_nil.
    - intros [=]%list_elem_of_singleton. }
  destruct id as [oid|]; cycle 1.
  { rewrite update_parcel_bad_id. simpl. rewrite drop_app_length. auto. }
  destruct (rejects w (UpdateOne Parcels)) eqn:Hw.
  { rewrite (update_parcel_write_failed w oid body s _ s
               (coll_updateOne_rejected w _ _ _ _ Hw)).
    simpl. rewrite drop_app_length. auto. }
  pose proof (coll_updateOne_run w Parcels (Mongo.by_id oid) body s Hw) as Hu.
  simpl in Hu.
  destruct (list_find (λ x, Mongo.by_id oid x) (parcels s)) as [[i d]|] eqn:Hf.
  - destruct (Mongo.changes_id body d) eqn:Hid.
    { rewrite (updateOne_refused _ _ _ _ _ Hf Hid) in Hu.
      rewrite (update_parcel_write_failed _ _ _ _ _ _ Hu).
      simpl. rewrite drop_app_length. auto. }
    rewrite (updateOne_matched _ _ _ _ _ Hf Hid) in Hu.
    destruct (decide (body ∪ d = d)) as [Hsame|Hne].
    + rewrite (update_parcel_same_run w oid body s i d Hw Hf Hid Hsame).
      simpl. rewrite drop_all. auto.
    + rewrite (update_parcel_run _ _ _ _ _ _ Hu).
      set (s1 := State (<[i:=body ∪ d]> (parcels s)) (users s)
                   (deliveryAgents s) (trace s)) in *.
      assert (∃ o s2 rest, on_modified w oid body
                (Mongo.UpdateResult 1 1) s1 = (o, s2)
              ∧ parcels s2 = parcels s1
              ∧ trace s2 = trace s ++ Emit "status-updated" :: rest)
        as (o & s2 & rest & -> & Hp & Ht).
      { destruct (is_final (body !! "status")) eqn:Hfin.
        - rewrite on_modified_final by (done || simpl; lia).
          pose proof (follow_up_parcels w oid body
                        (add_event (Emit "status-updated") s1)) as H1.
          pose proof (follow_up_trace_extends w oid body
                        (add_event (Emit "status-updated") s1)) as (l & H2).
          unfold same_parcels, after in *.
          destruct (follow_up _ _ _ _) as [o s2]. simpl in *.
          exists o, s2, l. split_and!; [done | done |].
          by rewrite H2, <- app_assoc.
        - rewrite on_modified_other by (done || simpl; lia).
          eexists _, _, []. split_and!; done. }
      assert (parcels s1 ≠ parcels s) as Hchanged.
      { simpl. intros Heq. apply Hne.
        apply list_find_Some in Hf as (Hi & _).
        assert (<[i:=body ∪ d]> (parcels s) !! i = Some (body ∪ d)) as Hl
          by (apply list_lookup_insert_eq; by eapply lookup_lt_Some).
        rewrite Heq, Hi in Hl. by simplify_eq. }
      destruct o as [[]|e]; simpl.
      * rewrite Ht, drop_app_length, Hp. split; [done|]. intros _. left.
      * rewrite Ht, <- app_assoc, drop_app_length, Hp. split; [done|].
        intros _. left.
  - rewrite (updateOne_unmatched _ _ _ Hf) in Hu.
    rewrite (update_parcel_unmatched_run w oid body s Hw Hf).
    simpl. rewrite drop_all. auto.
Qed.

(** X14: The follow-up of the present revision never alters what is stored about
    parcels: for every request the handler leaves the parcels collection as
    the earlier revision's handler does.  For a body that does not ask for
    [Delivered] or [Failed], whenever the earlier handler answers, the
    present one gives the same answer and the same state. *)
Theorem revisions_agree w id body s :
  parcels (after (update_parcel w id body) s)
    = parcels (after (Earlier.update_parcel w id body) s)
  ∧ (is_final (body !! "status") = false →
     ∀ r, answer (Earlier.update_parcel w id body) s = Ok r →
          update_parcel w id body s = Earlier.update_parcel w id body s).
Proof.
  unfold after, answer. destruct id as [oid|]; cycle 1.
  { rewrite update_parcel_bad_id. split; [done|]. by intros _ r [=]. }
  unfold Earlier.update_parcel. erewrite (bind_ok (ObjectId (Some oid))) by reflexivity.
  destruct (coll_updateOne w Parcels (Mongo.by_id oid) body s) as [[r|e] s1] eqn:Hu.
  - rewrite (update_parcel_run _ _ _ _ _ _ Hu).
    erewrite bind_ok by exact Hu.
    pose proof (on_modified_parcels w oid body r s1) as Hp.
    unfold same_parcels, after in Hp.
    destruct (bool_decide (0 < Mongo.modifiedCount r)) eqn:Hm.
    + apply bool_decide_eq_true in Hm.
      erewrite bind_ok by reflexivity. split.
      * by destruct (on_modified w oid body r s1) as [[[]|?] s2].
      * intros Hfin r0 _. by rewrite on_modified_other.
    + apply bool_decide_eq_false in Hm.
      erewrite bind_ok by reflexivity.
      rewrite on_modified_unmodified by lia. by split.
  - rewrite (update_parcel_write_failed _ _ _ _ _ _ Hu).
    erewrite bind_throw by exact Hu. split; [done|]. by intros _ r [=].
Qed.

(** ** More on booking *)

Lemma book_parcel_insert_failed w body s pickup delivery e :
  resolve w (body !! "pickupAddress") = Found pickup →
  resolve w (body !! "deliveryAddress") = Found delivery →
  coll_insertOne w Parcels (new_parcel w body pickup delivery) s = (Throw e, s) →
  book_parcel w body s = (Ok booking_failed, logged booking_line s).
Proof.
  intros Hp Hd Hi. unfold book_parcel. erewrite try_throw; [done|].
  erewrite bind_ok by (by rewrite getCoordinates_run, Hp).
  erewrite bind_ok by (by rewrite getCoordinates_run, Hd).
  cbv beta iota zeta. by erewrite bind_throw by exact Hi.
Qed.

Lemma coll_insertOne_outcome w c d s :
  (∃ i l, coll_insertOne w c d s = (Ok i, write_coll c l s)
          ∧ Mongo.insertOne (fresh_id w) d (read_coll c s) = Some (i, l))
  ∨ (∃ e, coll_insertOne w c d s = (Throw e, s)).
Proof.
  unfold coll_insertOne, await. destruct (rejects w (InsertOne c)); [right; by eexists|].
  destruct (Mongo.insertOne _ _ _) as [[i l]|]; [left | right]; by eauto.
Qed.

(** X15: The booking handler always answers: 200 with the inserted id, 400
    "Invalid addresses" or 500 "Booking failed"; a failing geocoder, store
    or mail transport never leaves the caller without a response. *)
Theorem book_parcel_always_answers w body s :
  (∃ i, answer (book_parcel w body) s = Ok (Response 200 (Booked i)))
  ∨ answer (book_parcel w body) s = Ok invalid_addresses
  ∨ answer (book_parcel w body) s = Ok booking_failed.
Proof.
  unfold answer.
  destruct (resolve w (body !! "pickupAddress")) as [pickup| |] eqn:Hp;
    [| | by rewrite book_parcel_lookup_failed by auto; auto].
  - destruct (resolve w (body !! "deliveryAddress")) as [delivery| |] eqn:Hd.
    + destruct (coll_insertOne_outcome w Parcels
                  (new_parcel w body pickup delivery) s)
        as [(i & l & Hi & _)|(e & Hi)].
      * rewrite (book_parcel_found w body s pickup delivery i l Hp Hd Hi).
        cbv zeta. destruct (rejects w Transport); [auto | left; by exists i].
      * rewrite (book_parcel_insert_failed w body s pickup delivery e Hp Hd Hi).
        auto.
    + rewrite book_parcel_not_found; [auto | congruence | congruence | auto].
    + rewrite book_parcel_lookup_failed; [auto|]. right. split; congruence.
  - destruct (resolve w (body !! "deliveryAddress")) eqn:Hd.
    + rewrite book_parcel_not_found; [auto | congruence | congruence | auto].
    + rewrite book_parcel_not_found; [auto | congruence | congruence | auto].
    + rewrite book_parcel_lookup_failed; [auto|]. right. split; congruence.
Qed.

(** X16: A booking is not undone when its confirmation mail fails: the parcel has
    been stored, and the caller is answered 500 "Booking failed". *)
Theorem booking_mail_failure w body s pickup delivery :
  resolve w (body !! "pickupAddress") = Found pickup →
  resolve w (body !! "deliveryAddress") = Found delivery →
  rejects w (InsertOne Parcels) = false →
  (∀ d, d ∈ parcels s → d !! "_id" ≠ Some (VOid (fresh_id w))) →
  rejects w Transport = true →
  answer (book_parcel w body) s = Ok booking_failed
  ∧ parcels (after (book_parcel w body) s)
      = parcels s ++ [new_parcel w body pickup delivery].
Proof.
  intros Hp Hd Hins Hfresh Hrej.
  set (p := new_parcel w body pickup delivery).
  assert (p !! "_id" = Some (VOid (fresh_id w))) as Hid by apply new_parcel_fields.
  assert (Mongo.with_id (fresh_id w) p = p) as Hwith
    by (unfold Mongo.with_id; by rewrite Hid).
  assert (coll_insertOne w Parcels p s
            = (Ok (Some (VOid (fresh_id w))), write_coll Parcels (parcels s ++ [p]) s))
    as Hi.
  { rewrite coll_insertOne_run by done. simpl.
    rewrite insertOne_fresh; rewrite Hwith, Hid; [done|].
    intros x Hx. by apply Hfresh. }
  unfold answer, after.
  rewrite (book_parcel_found w body s pickup delivery _ _ Hp Hd Hi).
  cbv zeta. by rewrite Hrej.
Qed.

Lemma booking_mail_failure_witness :
  answer (book_parcel (failing Transport) booking) registered_both
    = Ok booking_failed
  ∧ ∃ pickup delivery,
      parcels (after (book_parcel (failing Transport) booking) registered_both)
        = parcels registered_both
          ++ [new_parcel (failing Transport) booking pickup delivery].
Proof.
  destruct (booking_mail_failure (failing Transport) booking registered_both
              (VObj (<["lat" := VNum 23]> (<["lng" := VNum 90]> ∅)))
              (VObj (<["lat" := VNum 24]> (<["lng" := VNum 91]> ∅))))
    as [Ha Hp]; try (vm_compute; reflexivity).
  - intros d Hd. vm_compute in Hd. by apply not_elem_of_nil in Hd.
  - split; [exact Ha | eauto].
Defined.

(** X17: When the store does not take the insert (the call rejects, or the
    generated id is already taken), the booking is answered 500 "Booking
    failed", nothing is stored and no mail is handed to the transport. *)
Theorem booking_insert_failure w body s pickup delivery :
  resolve w (body !! "pickupAddress") = Found pickup →
  resolve w (body !! "deliveryAddress") = Found delivery →
  rejects w (InsertOne Parcels) = true
  ∨ (∃ d, d ∈ parcels s ∧ d !! "_id" = Some (VOid (fresh_id w))) →
  book_parcel w body s = (Ok booking_failed, logged booking_line s).
Proof.
  intros Hp Hd Hfail.
  destruct (coll_insertOne_outcome w Parcels
              (new_parcel w body pickup delivery) s)
    as [(i & l & Hi & Hins)|(e & Hi)];
    [|by eapply book_parcel_insert_failed].
  exfalso. unfold coll_insertOne, await in Hi.
  destruct Hfail as [Hrej|(d & Hin & Hdup)]; [by rewrite Hrej in Hi|].
  simpl in Hins. rewrite (insertOne_duplicate _ _ _ d) in Hins; [done | done |].
  set (p := new_parcel w body pickup delivery).
  assert (p !! "_id" = Some (VOid (fresh_id w))) as Hid by apply new_parcel_fields.
  unfold Mongo.with_id. by rewrite Hid, Hid.
Qed.

Lemma booking_insert_failure_witness :
  book_parcel (calm 3) booking booked = (Ok booking_failed, logged booking_line booked).
Proof.
  apply (booking_insert_failure (calm 3) booking booked
           (VObj (<["lat" := VNum 23]> (<["lng" := VNum 90]> ∅)))
           (VObj (<["lat" := VNum 24]> (<["lng" := VNum 91]> ∅))));
    try (vm_compute; reflexivity).
  right. eexists. split.
  - apply list_elem_of_lookup. exists 0. vm_compute. reflexivity.
  - vm_compute. reflexivity.
Defined.

(** ** Invariants of the store *)

Global Instance preserves_po (I : state → Prop) : PreOrder (preserves I).
Proof. split; unfold preserves; [by intros s | intros x y z; tauto]. Qed.

Section IdFacts.

Implicit Types (c : list doc) (d upd : doc) (p : doc → bool).

Lemma updateOne_keeps_ids p upd c r c' :
  Mongo.updateOne p upd c = Some (r, c') →
  (λ d : doc, d !! "_id") <$> c' = (λ d : doc, d !! "_id") <$> c.
Proof.
  unfold Mongo.updateOne. intros H.
  destruct (list_find _ c) as [[i d]|] eqn:Hf; [|by simplify_eq].
  destruct (Mongo.changes_id upd d) eqn:Hid; simplify_eq.
  apply list_find_Some in Hf as (Hi & _).
  rewrite list_fmap_insert. apply list_insert_id.
  rewrite list_lookup_fmap, Hi. simpl. f_equal.
  unfold Mongo.changes_id in Hid.
  destruct (upd !! "_id") as [v|] eqn:Hv.
  - apply bool_decide_eq_false in Hid.
    rewrite (union_lookup_set _ _ _ _ Hv).
    by destruct (decide (d !! "_id" = Some v)).
  - by rewrite union_lookup_unset.
Qed.

Lemma updateOne_ids_distinct p upd c r c' :
  Mongo.updateOne p upd c = Some (r, c') → ids_distinct c → ids_distinct c'.
Proof.
  intros H. unfold ids_distinct. by rewrite (updateOne_keeps_ids _ _ _ _ _ H).
Qed.

Lemma insertOne_ids_distinct fresh d c r c' :
  Mongo.insertOne fresh d c = Some (r, c') → ids_distinct c → ids_distinct c'.
Proof.
  unfold Mongo.insertOne, ids_distinct. cbv zeta.
  destruct (bool_decide _) eqn:Hex; [done|]. intros [= <- <-] Hnd.
  apply bool_decide_eq_false in Hex.
  rewrite fmap_app. apply NoDup_app. split_and!; [done | | apply NoDup_singleton].
  intros o (x & -> & Hx)%list_elem_of_fmap [= Heq]%list_elem_of_singleton.
  apply Hex, Exists_exists. eauto.
Qed.

Lemma deleteOne_ids_distinct p c n c' :
  Mongo.deleteOne p c = (n, c') → ids_distinct c → ids_distinct c'.
Proof.
  unfold Mongo.deleteOne.
  destruct (list_find _ c) as [[i d]|]; intros [= <- <-]; [|done].
  apply ids_distinct_delete.
Qed.

End IdFacts.

Lemma all_ids_write c l s :
  (ids_distinct (read_coll c s) → ids_distinct l) →
  all_ids_distinct s → all_ids_distinct (write_coll c l s).
Proof.
  intros Hl (Hp & Hu & Ha). unfold all_ids_distinct.
  destruct c; simpl in *; split_and!; auto.
Qed.

Section IdKeeps.

Context (w : env).

Lemma ids_updateOne c p upd :
  keeps (preserves all_ids_distinct) (coll_updateOne w c p upd).
Proof.
  apply keeps_await; [apply _|]. intros s. unfold after.
  destruct (Mongo.updateOne _ _ _) as [[r l]|] eqn:Hu; simpl; [|by intros ?].
  intros Hs. eapply all_ids_write; [|done]. by eapply updateOne_ids_distinct.
Qed.

Lemma ids_insertOne c d :
  keeps (preserves all_ids_distinct) (coll_insertOne w c d).
Proof.
  apply keeps_await; [apply _|]. intros s. unfold after.
  destruct (Mongo.insertOne _ _ _) as [[r l]|] eqn:Hu; simpl; [|by intros ?].
  intros Hs. eapply all_ids_write; [|done]. by eapply insertOne_ids_distinct.
Qed.

Lemma ids_deleteOne c p :
  keeps (preserves all_ids_distinct) (coll_deleteOne w c p).
Proof.
  apply keeps_await; [apply _|]. intros s. unfold after.
  destruct (Mongo.deleteOne _ _) as [n l] eqn:Hu; simpl.
  intros Hs. eapply all_ids_write; [|done]. by eapply deleteOne_ids_distinct.
Qed.

Lemma ids_event e : ignores_event (preserves all_ids_distinct) e.
Proof. intros s Hs. exact Hs. Qed.

End IdKeeps.

Global Hint Resolve ids_updateOne ids_insertOne ids_deleteOne ids_event : keeps.

Lemma handle_keeps_ids w r : keeps (preserves all_ids_distinct) (handle w r).
Proof. destruct r; simpl; unfold_routes; unfold release_agent; keeps_auto. Qed.

(** X18: In every state the server can reach from the empty store, no two
    documents of a collection share an [_id]: the store refuses a second
    document with a taken id and refuses an update that would change one.
    So [{ _id }] selects at most one parcel, user or application. *)
Theorem reachable_ids_distinct s :
  reachable s →
  all_ids_distinct s
  ∧ (∀ oid i j d d',
       parcels s !! i = Some d → parcels s !! j = Some d' →
       Mongo.by_id oid d = true → Mongo.by_id oid d' = true → i = j).
Proof.
  intros Hreach.
  assert (all_ids_distinct s) as Hinv.
  { revert s Hreach. apply (rtc_ind_r (λ z, all_ids_distinct z) initial).
    - unfold all_ids_distinct, ids_distinct, initial. simpl.
      split_and!; apply NoDup_nil_2.
    - intros x y _ (w & r & <-) IH. by apply (handle_keeps_ids w r x). }
  split; [done|].
  intros oid i j d d' Hi Hj Hd%bool_decide_eq_true Hd'%bool_decide_eq_true.
  destruct Hinv as (Hp & _). unfold ids_distinct in Hp.
  eapply NoDup_lookup; [exact Hp | |];
    rewrite list_lookup_fmap; [rewrite Hi | rewrite Hj]; simpl; [done|].
  congruence.
Qed.

Lemma reachable_ids_distinct_witness : all_ids_distinct delivered.
Proof. apply (reachable_ids_distinct delivered), reachable_examples. Defined.

Lemma new_parcel_well_formed w body pickup delivery :
  well_formed_parcel (new_parcel w body pickup delivery).
Proof.
  destruct (new_parcel_fields w body pickup delivery)
    as (H1 & H2 & H3 & H4 & H5 & _).
  intros k Hk. unfold booked_fields in Hk.
  repeat (apply elem_of_cons in Hk as [->|Hk]; [by eexists|]).
  by apply not_elem_of_nil in Hk.
Qed.

Lemma set_well_formed upd d : well_formed_parcel d → well_formed_parcel (upd ∪ d).
Proof.
  intros H k Hk. apply lookup_union_is_Some. right. by apply H.
Qed.

Section WellFormedKeeps.

Context (w : env).

Lemma wf_event e : ignores_event (preserves parcels_well_formed) e.
Proof. intros s Hs. exact Hs. Qed.

Lemma wf_writes c : c ≠ Parcels → ignores_writes (preserves parcels_well_formed) c.
Proof. intros Hc s l Hs. by destruct c. Qed.

Lemma wf_update p upd :
  keeps (preserves parcels_well_formed) (coll_updateOne w Parcels p upd).
Proof.
  apply keeps_await; [apply _|]. intros s. unfold after.
  destruct (Mongo.updateOne _ _ _) as [[r l]|] eqn:Hu; simpl; [|by intros ?].
  unfold preserves, parcels_well_formed. simpl. rewrite !Forall_lookup.
  intros Hs j d' Hj.
  destruct (updateOne_pointwise _ _ _ _ _ j Hu) as [Heq|(d & Hd & _ & Hd')].
  - rewrite Heq in Hj. by eapply Hs.
  - rewrite Hd' in Hj. simplify_eq. apply set_well_formed. by eapply Hs.
Qed.

Lemma wf_insert body pickup delivery :
  keeps (preserves parcels_well_formed)
    (coll_insertOne w Parcels (new_parcel w body pickup delivery)).
Proof.
  apply keeps_await; [apply _|]. intros s. unfold after.
  destruct (Mongo.insertOne _ _ _) as [[r l]|] eqn:Hi; simpl; [|by intros ?].
  unfold Mongo.insertOne in Hi. cbv zeta in Hi.
  destruct (bool_decide _); [done|]. injection Hi as <- <-.
  unfold preserves, parcels_well_formed. simpl. intros Hs.
  apply Forall_app. split; [done|]. apply Forall_singleton.
  unfold Mongo.with_id.
  destruct (new_parcel_fields w body pickup delivery) as (_ & _ & -> & _).
  apply new_parcel_well_formed.
Qed.

End WellFormedKeeps.

Global Hint Resolve wf_event wf_writes wf_update wf_insert : keeps.

Lemma handle_keeps_well_formed w r :
  keeps (preserves parcels_well_formed) (handle w r).
Proof. destruct r; simpl; unfold_routes; unfold release_agent; keeps_auto. Qed.

(** X19: In every state the server can reach from the empty store, every stored
    parcel has a [status], a [createdAt], an [_id] and both coordinate
    fields: booking sets them all and no route removes a field. *)
Theorem reachable_parcels_well_formed s d :
  reachable s → d ∈ parcels s →
  is_Some (d !! "status") ∧ is_Some (d !! "createdAt") ∧ is_Some (d !! "_id")
  ∧ is_Some (d !! "pickup") ∧ is_Some (d !! "delivery").
Proof.
  intros Hreach Hd.
  assert (parcels_well_formed s) as Hinv.
  { clear Hd. revert s Hreach.
    apply (rtc_ind_r (λ z, parcels_well_formed z) initial).
    - apply Forall_nil_2.
    - intros x y _ (w & r & <-) IH. by apply (handle_keeps_well_formed w r x). }
  unfold parcels_well_formed in Hinv. rewrite Forall_forall in Hinv.
  specialize (Hinv d Hd).
  split_and!; apply Hinv; compute_done.
Qed.

Lemma reachable_parcels_well_formed_witness :
  ∃ d, d ∈ parcels cancelled ∧ is_Some (d !! "status").
Proof.
  assert (∃ d, parcels cancelled !! 0 = Some d) as [d Hd]
    by (eexists; vm_compute; reflexivity).
  exists d. split; [by eapply list_elem_of_lookup_2|].
  apply (reachable_parcels_well_formed cancelled d);
    [apply reachable_examples | by eapply list_elem_of_lookup_2].
Defined.

(** *** Nothing is deleted *)

Global Instance nothing_lost_po : PreOrder nothing_lost.
Proof.
  split.
  - intros s. split; intros i d Hd; by exists d.
  - intros x y z [Hp1 Hu1] [Hp2 Hu2]. split.
    + intros i d Hd. destruct (Hp1 i d Hd) as (d1 & H1 & E1).
      destruct (Hp2 i d1 H1) as (d2 & H2 & E2). exists d2. split; [done | congruence].
    + intros i d Hd. destruct (Hu1 i d Hd) as (d1 & H1 & E1).
      destruct (Hu2 i d1 H1) as (d2 & H2 & E2). exists d2. split; [done | congruence].
Qed.

Lemma kept_under_id (c c' : list doc) :
  (∀ i, (λ d : doc, d !! "_id") <$> (c' !! i) = (λ d : doc, d !! "_id") <$> (c !! i)
        ∨ (c !! i = None)) →
  ∀ i d, c !! i = Some d → ∃ d', c' !! i = Some d' ∧ d' !! "_id" = d !! "_id".
Proof.
  intros H i d Hd. destruct (H i) as [Heq|Hnone]; [|congruence].
  rewrite Hd in Heq. simpl in Heq. apply fmap_Some in Heq as (d' & Hd' & E).
  by exists d'.
Qed.

Lemma updateOne_nothing_lost p upd (c : list doc) r c' :
  Mongo.updateOne p upd c = Some (r, c') →
  ∀ i d, c !! i = Some d → ∃ d', c' !! i = Some d' ∧ d' !! "_id" = d !! "_id".
Proof.
  intros Hu. apply kept_under_id. intros i. left.
  by rewrite <- !list_lookup_fmap, (updateOne_keeps_ids _ _ _ _ _ Hu).
Qed.

Lemma insertOne_nothing_lost fresh d0 (c : list doc) r c' :
  Mongo.insertOne fresh d0 c = Some (r, c') →
  ∀ i d, c !! i = Some d → ∃ d', c' !! i = Some d' ∧ d' !! "_id" = d !! "_id".
Proof.
  unfold Mongo.insertOne. cbv zeta. destruct (bool_decide _); [done|].
  intros [= <- <-] i d Hd. exists d. split; [|done]. by apply lookup_app_l_Some.
Qed.

Lemma nothing_lost_write c l s :
  c = DeliveryAgents
  ∨ (∀ i d, read_coll c s !! i = Some d →
       ∃ d', l !! i = Some d' ∧ d' !! "_id" = d !! "_id") →
  nothing_lost s (write_coll c l s).
Proof.
  intros [->|H]; [split; intros i d Hd; by exists d|].
  destruct c; simpl in *; split; try done; intros i d Hd; by exists d.
Qed.

Section NothingLostKeeps.

Context (w : env).

Lemma lost_event e : ignores_event nothing_lost e.
Proof. intros s. split; intros i d Hd; by exists d. Qed.

Lemma lost_updateOne c p upd : keeps nothing_lost (coll_updateOne w c p upd).
Proof.
  apply keeps_await; [apply _|]. intros s. unfold after.
  destruct (Mongo.updateOne _ _ _) as [[r l]|] eqn:Hu; simpl; [|reflexivity].
  apply nothing_lost_write. right. by eapply updateOne_nothing_lost.
Qed.

Lemma lost_insertOne c d : keeps nothing_lost (coll_insertOne w c d).
Proof.
  apply keeps_await; [apply _|]. intros s. unfold after.
  destruct (Mongo.insertOne _ _ _) as [[r l]|] eqn:Hu; simpl; [|reflexivity].
  apply nothing_lost_write. right. by eapply insertOne_nothing_lost.
Qed.

Lemma lost_deleteOne p : keeps nothing_lost (coll_deleteOne w DeliveryAgents p).
Proof.
  apply keeps_await; [apply _|]. intros s. unfold after.
  destruct (Mongo.deleteOne _ _) as [n l]; simpl.
  apply (nothing_lost_write DeliveryAgents). by left.
Qed.

End NothingLostKeeps.

Global Hint Resolve lost_event lost_updateOne lost_insertOne lost_deleteOne : keeps.

Lemma handle_nothing_lost w r : keeps nothing_lost (handle w r).
Proof. destruct r; simpl; unfold_routes; unfold release_agent; keeps_auto. Qed.

(** X20: No route deletes a parcel or a user: whatever requests follow, every
    stored parcel and every stored user is still stored, at the same
    position of its collection and under the same [_id]. *)
Theorem stored_stays_stored s s' :
  rtc step s s' → nothing_lost s s'.
Proof.
  intros Hrun. revert s' Hrun. apply (rtc_ind_r (λ z, nothing_lost s z) s).
  - reflexivity.
  - intros x y _ (w & r & <-) IH. etrans; [exact IH|]. apply handle_nothing_lost.
Qed.

Lemma stored_stays_stored_witness : nothing_lost booked delivered.
Proof.
  apply (stored_stays_stored booked delivered).
  eapply rtc_l; [by exists (calm 4), (PatchParcel (Decoded "agent@x") (Some 3%N) assign)|].
  eapply rtc_l; [|apply rtc_refl].
  by exists (calm 5), (PatchParcel (Decoded "agent@x") (Some 3%N) deliver).
Defined.
